(** * kaginawa: the mbed motor-controller firmware ([mbed/main.cc])

    A shallow embedding of the firmware's command byte, of the [Motor]
    class and of one pass through the [while(1)] loop of [main], followed
    by the properties of the packet protocol, of the actuation and of the
    sensor report. *)

From Stdlib Require Import ZArith Lia Bool String Ascii.
From Stdlib Require Import Floats.SpecFloat.
From stdpp Require Import base option list.

Local Open Scope Z_scope.

(** ** Pins

    The [PinName]s that [main] binds. *)

Inductive PinName : Set :=
| p11 | p12 | p13 | p14
| p15 | p16 | p17 | p18 | p19 | p20
| p21 | p22 | p23 | p24.

(** ** The command byte

    [union MotorPacket] overlays [unsigned char as_byte] with the bit-fields
    [motor_id : 2], [negative : 1], [speed : 5].  On the mbed target
    (little-endian ARM, bit-fields allocated from the least significant
    bit) the three fields fill exactly the byte [as_byte]: "the first two
    bits of the packet represent the motor ID, the third bit is the sign,
    the last five bits represent the speed".  The union is therefore the
    byte it stores, and the fields are read out of it. *)

Module Packet.

Record MotorPacket : Set := { as_byte : Z }.

(** [packet.as_byte = c]: the store converts to [unsigned char]. *)
Definition set_as_byte (c : Z) : MotorPacket := {| as_byte := c mod 256 |}.

(** Decoding a received byte is that store; the fields are then read
    through [b]. *)
Definition decode (byte : Z) : MotorPacket := set_as_byte byte.

(** [packet.b.motor_id] *)
Definition motor_id (p : MotorPacket) : Z := Z.land (as_byte p) 3.

(** [packet.b.negative] *)
Definition negative (p : MotorPacket) : Z := Z.land (Z.shiftr (as_byte p) 2) 1.

(** [packet.b.speed] *)
Definition speed (p : MotorPacket) : Z := Z.land (Z.shiftr (as_byte p) 3) 31.

(** The condition of the [if] in the loop:
    [packet.b.negative and !packet.b.speed]. *)
Definition is_extension (p : MotorPacket) : bool :=
  negb (negative p =? 0) && (speed p =? 0).

(** Modelled from the spec: the sender's packing of a command byte, which
    lives on the host side and is not part of the firmware.  The wire
    layout has [motor_id] in the lowest 2 bits, [negative] in the next
    bit and [speed] in the top 5 bits. *)
Definition encode (mid neg spd : Z) : Z :=
  Z.lor (Z.lor mid (Z.shiftl neg 2)) (Z.shiftl spd 3).

End Packet.

Import Packet.

(** The triple read back from an encoded byte agrees with the triple that
    was packed. *)
Definition roundtrip_ok (mid neg spd : Z) : bool :=
  let p := set_as_byte (encode mid neg spd) in
  (motor_id p =? mid) && (negative p =? neg) && (speed p =? spd).

(** Bounded quantification over an integer interval, by enumeration. *)

Definition Zrange (lo : Z) (n : nat) : list Z :=
  map (fun i => lo + Z.of_nat i) (seq 0 n).


(** ** Floating point

    [float] is IEEE binary32 and [double] binary64, with the operations of
    the standard library's [SpecFloat] (round to nearest, ties to even). *)

Module Float.

Definition float_of_int (z : Z) : spec_float := binary_normalize 24 128 z 0 false.

Definition double_of_int (z : Z) : spec_float := binary_normalize 53 1024 z 0 false.

(** The implicit conversion of a [double] argument to a [float] parameter. *)
Definition float_of_double (d : spec_float) : spec_float :=
  match d with
  | S754_finite s m e => binary_round 24 128 s m e
  | _ => d
  end.

Definition double_div : spec_float -> spec_float -> spec_float := SFdiv 53 1024.

(** [a / b] for an [int] [a] and a [double] literal of integral value [b],
    passed as a [float]. *)
Definition ratio (a b : Z) : spec_float :=
  float_of_double (double_div (double_of_int a) (double_of_int b)).

(** [abs(x)] on a [float] argument, resolved to the floating-point
    overload that [mbed.h] brings in through [math.h]: the sign is
    cleared.  The sample usage in the source ("runs motor backwards at 50%
    speed") relies on this reading. *)
Definition abs : spec_float -> spec_float := SFabs.

Definition ltb : spec_float -> spec_float -> bool := SFltb.
Definition leb : spec_float -> spec_float -> bool := SFleb.

(** The documented range of a speed: [-1 <= x <= 1]. *)
Definition in_unit_range (x : spec_float) : bool :=
  leb (float_of_int (-1)) x && leb x (float_of_int 1).

End Float.

(** ** The mbed objects the firmware owns

    Each object records what was last written to it.  A freshly constructed
    [PwmOut] has the library's 20 ms period and zero duty, a fresh
    [DigitalOut] is low; the [Motor] constructor overwrites all three. *)

Module Mbed.

Record PwmOut : Set := { pwm_pin : PinName; duty : spec_float; period_us : Z }.

Record DigitalOut : Set := { dout_pin : PinName; level : Z }.

Record AnalogIn : Set := { ain_pin : PinName }.

(** The serial link to the host: the bytes received and not yet read, and
    everything printed so far. *)
Record Serial : Set := { rx : list Z; tx : string }.

Definition PwmOut_new (pin : PinName) : PwmOut :=
  {| pwm_pin := pin; duty := S754_zero false; period_us := 20000 |}.

Definition DigitalOut_new (pin : PinName) : DigitalOut :=
  {| dout_pin := pin; level := 0 |}.

(** [pwm = value] *)
Definition PwmOut_write (value : spec_float) (o : PwmOut) : PwmOut :=
  {| pwm_pin := pwm_pin o; duty := value; period_us := period_us o |}.

(** [pwm.period_us(us)] *)
Definition PwmOut_period_us (us : Z) (o : PwmOut) : PwmOut :=
  {| pwm_pin := pwm_pin o; duty := duty o; period_us := us |}.

(** [dir = value]: any non-zero value drives the pin high. *)
Definition DigitalOut_write (value : Z) (o : DigitalOut) : DigitalOut :=
  {| dout_pin := dout_pin o; level := if value =? 0 then 0 else 1 |}.

(** [operator int()] of a [DigitalOut] *)
Definition DigitalOut_read (o : DigitalOut) : Z := level o.

(** [rpi.readable()] *)
Definition readable (s : Serial) : bool :=
  match rx s with [] => false | _ :: _ => true end.

(** [rpi.getc()], called only when [readable]. *)
Definition getc (s : Serial) : Z * Serial :=
  match rx s with
  | [] => (0, s)
  | c :: rest => (c, {| rx := rest; tx := tx s |})
  end.

(** [rpi.printf(...)] with the formatted text [out]. *)
Definition printf (out : string) (s : Serial) : Serial :=
  {| rx := rx s; tx := String.append (tx s) out |}.

(** One upper-case hexadecimal digit. *)
Definition hex_digit (d : Z) : ascii :=
  match d with
  | 0 => "0" | 1 => "1" | 2 => "2" | 3 => "3" | 4 => "4" | 5 => "5"
  | 6 => "6" | 7 => "7" | 8 => "8" | 9 => "9" | 10 => "A" | 11 => "B"
  | 12 => "C" | 13 => "D" | 14 => "E" | _ => "F"
  end%char.

Fixpoint hex_digits (fuel : nat) (n : Z) (acc : string) : string :=
  match fuel with
  | O => acc
  | S fuel' =>
      let acc' := String (hex_digit (n mod 16)) acc in
      if n / 16 =? 0 then acc' else hex_digits fuel' (n / 16) acc'
  end.

(** The conversion [%X] of an [unsigned int]: upper-case hexadecimal, no
    padding, at most 8 digits. *)
Definition format_X (n : Z) : string := hex_digits 8 (n mod 2 ^ 32) EmptyString.

End Mbed.

Import Mbed.

(** ** Arrays indexed by an [int]

    An access outside the array is undefined in the source; the model
    returns [None] there. *)

Definition arr_get {A : Type} (a : list A) (i : Z) : option A :=
  if decide (0 <= i) then a !! Z.to_nat i else None.

Definition arr_set {A : Type} (a : list A) (i : Z) (v : A) : option (list A) :=
  if decide (0 <= i < Z.of_nat (length a)) then Some (<[Z.to_nat i := v]> a) else None.

(** ** class Motor *)

Record Motor : Set := { pwm : PwmOut; dir : DigitalOut }.

(** "HI is forward, LO is reverse." *)
Definition forward_level : Z := 1.
Definition reverse_level : Z := 0.

(** [Motor(pin_pwm, pin_dir) : pwm(pin_pwm), dir(pin_dir)], then
    [pwm = dir = 0; pwm.period_us(40);].  The chained assignment writes 0
    to [dir] and then writes to [pwm] the value read back from [dir]. *)
Definition Motor_init (pin_pwm pin_dir : PinName) : Motor :=
  let pwm0 := PwmOut_new pin_pwm in
  let dir0 := DigitalOut_new pin_dir in
  let dir1 := DigitalOut_write 0 dir0 in
  let pwm1 := PwmOut_write (Float.float_of_int (DigitalOut_read dir1)) pwm0 in
  let pwm2 := PwmOut_period_us 40 pwm1 in
  {| pwm := pwm2; dir := dir1 |}.

(** [void drive(float speed)]:
    [dir = speed < 0 ? 0 : 1; pwm = abs(speed);] *)
Definition drive (spd : spec_float) (m : Motor) : Motor :=
  let dir1 := DigitalOut_write (if Float.ltb spd (Float.float_of_int 0) then 0 else 1) (dir m) in
  let pwm1 := PwmOut_write (Float.abs spd) (pwm m) in
  {| pwm := pwm1; dir := dir1 |}.

(** [motors[i].drive(spd)] *)
Definition drive_motor (i : Z) (spd : spec_float) (ms : list Motor) : option (list Motor) :=
  m ← arr_get ms i; arr_set ms i (drive spd m).

(** ** main *)

(** The locals of [main] that live across iterations, and the serial link. *)
Record State : Set := {
  rpi : Serial;
  motors : list Motor;
  pots : list AnalogIn;
  n_adc : Z;
  adc_results : list Z;
  packet : MotorPacket
}.

(** The analog inputs during one iteration: the sample each pin yields. *)
Definition Analog : Type := PinName -> Z.

(** [a.read_u16()]: a [uint16_t]. *)
Definition read_u16 (env : Analog) (a : AnalogIn) : Z := env (ain_pin a) mod 65536.

Definition main_motors : list Motor :=
  [ Motor_init p21 p11;    (* Left wheels *)
    Motor_init p22 p12;    (* Right wheels *)
    Motor_init p23 p13;    (* Left flipper *)
    Motor_init p24 p14 ].  (* Right flipper *)

Definition main_pots : list AnalogIn :=
  [ {| ain_pin := p15 |}; {| ain_pin := p16 |};
    {| ain_pin := p17 |}; {| ain_pin := p18 |};   (* Unused *)
    {| ain_pin := p19 |};                         (* Left flipper position *)
    {| ain_pin := p20 |} ].                       (* Right flipper position *)

(** The state on entry to the loop.  [packet] is not initialised by the
    source: [stale] is whatever byte its storage holds.  [pending] are the
    bytes the host has already sent. *)
Definition main_init (pending : list Z) (stale : Z) : State :=
  let n := 2 in
  {| rpi := {| rx := pending; tx := EmptyString |};
     motors := main_motors;
     pots := main_pots;
     n_adc := n;
     adc_results := replicate (Z.to_nat n) 0;
     packet := {| as_byte := stale mod 256 |} |}.

(** Analog inputs on which the two flipper potentiometers read [0x1234]
    and [0x0000]. *)
Definition flipper_readings : Analog :=
  fun pin => match pin with p19 => 0x1234 | _ => 0 end.

(** *** Ingest: [if(rpi.readable()) packet.as_byte = rpi.getc();] *)
Definition ingest (s : State) : State :=
  if readable (rpi s) then
    let '(c, link) := getc (rpi s) in
    {| rpi := link; motors := motors s; pots := pots s; n_adc := n_adc s;
       adc_results := adc_results s; packet := set_as_byte c |}
  else s.

(** *** Act

    The arguments of the call [motors[packet.b.motor_id].drive(sign *
    packet.b.speed / 31.0)] in the [else] branch, if that branch is taken.
    [sign * packet.b.speed] is an [int], the quotient a [double], the
    parameter of [drive] a [float]. *)
Definition normalized_speed (p : MotorPacket) : spec_float :=
  let sign := if negative p =? 0 then 1 else -1 in
  Float.ratio (sign * speed p) 31.

Definition drive_request (p : MotorPacket) : option (Z * spec_float) :=
  if is_extension p then None   (* the switch is commented out *)
  else Some (motor_id p, normalized_speed p).

Definition act_motors (req : option (Z * spec_float)) (ms : list Motor) : option (list Motor) :=
  match req with
  | None => Some ms
  | Some (i, spd) => drive_motor i spd ms
  end.

Definition act (s : State) : option State :=
  ms ← act_motors (drive_request (packet s)) (motors s);
  Some {| rpi := rpi s; motors := ms; pots := pots s; n_adc := n_adc s;
          adc_results := adc_results s; packet := packet s |}.

(** *** Sample

    [for(int i = 0; i < n_adc - 2; i++) adc_results[i] = pots[i].read_u16();]
    with [k] iterations left. *)
Fixpoint sample_extra (env : Analog) (ps : list AnalogIn) (k : nat) (i : Z)
    (res : list Z) : option (list Z) :=
  match k with
  | O => Some res
  | S k' =>
      a ← arr_get ps i;
      res' ← arr_set res i (read_u16 env a);
      sample_extra env ps k' (i + 1) res'
  end.

Definition sample_active (env : Analog) (ps : list AnalogIn) (n : Z)
    (res : list Z) : option (list Z) :=
  res1 ← sample_extra env ps (Z.to_nat (n - 2)) 0 res;
  left_pos ← arr_get ps 4;
  res2 ← arr_set res1 (n - 2) (read_u16 env left_pos);
  right_pos ← arr_get ps 5;
  arr_set res2 (n - 1) (read_u16 env right_pos).

Definition sample (env : Analog) (s : State) : option State :=
  res ← sample_active env (pots s) (n_adc s) (adc_results s);
  Some {| rpi := rpi s; motors := motors s; pots := pots s; n_adc := n_adc s;
          adc_results := res; packet := packet s |}.

(** *** Report

    [for(int i = 0; i < n_adc; i++) rpi.printf("0x%X ", adc_results[i]);]
    and then [rpi.printf("\n")]. *)
Definition newline : string := String (ascii_of_nat 10) EmptyString.

Fixpoint report_tokens (res : list Z) (k : nat) (i : Z) (link : Serial) : option Serial :=
  match k with
  | O => Some link
  | S k' =>
      v ← arr_get res i;
      report_tokens res k' (i + 1)
        (printf (String.append "0x" (String.append (format_X v) " ")) link)
  end.

Definition report (s : State) : option State :=
  link ← report_tokens (adc_results s) (Z.to_nat (n_adc s)) 0 (rpi s);
  Some {| rpi := printf newline link; motors := motors s; pots := pots s;
          n_adc := n_adc s; adc_results := adc_results s; packet := packet s |}.

(** *** One iteration of [while(1)] *)
Definition loop_body (env : Analog) (s : State) : option State :=
  s1 ← act (ingest s);
  s2 ← sample env s1;
  report s2.

(** What [main] keeps true of its arrays: four motors, the six analog
    inputs in pin order, and between 2 and 6 channels in use, each with a
    slot in [adc_results]. *)
Definition wf_state (s : State) : Prop :=
  length (motors s) = 4%nat /\
  pots s = main_pots /\
  2 <= n_adc s <= 6 /\
  length (adc_results s) = Z.to_nat (n_adc s).

(** *** The loop over several iterations

    What reaches the firmware during one iteration: the bytes the host
    sends before the iteration starts, and the samples the analog inputs
    yield during it. *)
Record Tick : Type := { arriving : list Z; analog : Analog }.

(** Bytes sent by the host join the end of the receive buffer. *)
Definition receive (bytes : list Z) (s : State) : State :=
  {| rpi := {| rx := rx (rpi s) ++ bytes; tx := tx (rpi s) |};
     motors := motors s; pots := pots s; n_adc := n_adc s;
     adc_results := adc_results s; packet := packet s |}.

(** [while(1) { ... }], for as many iterations as there are ticks. *)
Fixpoint run (ticks : list Tick) (s : State) : option State :=
  match ticks with
  | [] => Some s
  | t :: ticks' =>
      s' ← loop_body (analog t) (receive (arriving t) s);
      run ticks' s'
  end.

(** ** Vocabulary of the statements *)

(** The text of one [printf("0x%X ", v)]. *)
Definition token (v : Z) : string :=
  String.append "0x" (String.append (format_X v) " ").

(** A report line for the buffer [res]: its tokens in order, then the
    newline. *)
Definition report_line (res : list Z) : string :=
  fold_right (fun v rest => String.append (token v) rest) newline res.

(** The number a string of hexadecimal digits denotes; [None] when a
    character is not one of [0-9A-F]. *)
Definition hex_digit_value (c : ascii) : option Z :=
  let n := Z.of_nat (nat_of_ascii c) in
  if (48 <=? n) && (n <=? 57) then Some (n - 48)
  else if (65 <=? n) && (n <=? 70) then Some (n - 55)
  else None.

Fixpoint hex_value_from (acc : Z) (digits : string) : option Z :=
  match digits with
  | EmptyString => Some acc
  | String c rest =>
      match hex_digit_value c with
      | Some d => hex_value_from (16 * acc + d) rest
      | None => None
      end
  end.

Definition hex_value (digits : string) : option Z :=
  match digits with
  | EmptyString => None
  | _ => hex_value_from 0 digits
  end.

(** No leading zero, except for the single digit of zero itself. *)
Definition unpadded (digits : string) : bool :=
  match digits with
  | String c (String _ _) => negb (Ascii.eqb c "0")
  | _ => true
  end.

(** Structural equality of floats. *)
Definition sf_eqb (x y : spec_float) : bool :=
  match x, y with
  | S754_zero a, S754_zero b => Bool.eqb a b
  | S754_infinity a, S754_infinity b => Bool.eqb a b
  | S754_nan, S754_nan => true
  | S754_finite a m e, S754_finite b m' e' => Bool.eqb a b && Pos.eqb m m' && (e =? e')
  | _, _ => false
  end.

(** A motor as the loop keeps it: the period of the constructor, a duty
    cycle in [0,1], a direction output that is low or high. *)
Definition motor_ok (m : Motor) : Prop :=
  period_us (pwm m) = 40 /\
  Float.leb (Float.float_of_int 0) (duty (pwm m)) = true /\
  Float.leb (duty (pwm m)) (Float.float_of_int 1) = true /\
  (level (dir m) = reverse_level \/ level (dir m) = forward_level).

(** The pins a motor is bound to. *)
Definition binding (m : Motor) : PinName * PinName :=
  (pwm_pin (pwm m), dout_pin (dir m)).

(** The digits [%X] prints for [v]: one to four of them, unpadded, and
    denoting [v]. *)
Definition digits_ok (v : Z) : bool :=
  let d := format_X v in
  (1 <=? Z.of_nat (String.length d)) && (Z.of_nat (String.length d) <=? 4) &&
  unpadded d &&
  match hex_value d with Some n => n =? v | None => false end.

(** * Properties *)

(** ** Field arithmetic *)

Lemma motor_id_mod p : motor_id p = as_byte p mod 4.
Proof. unfold motor_id. change 3 with (Z.ones 2). now rewrite Z.land_ones. Qed.

Lemma negative_mod p : negative p = (as_byte p / 4) mod 2.
Proof.
  unfold negative. change 1 with (Z.ones 1).
  rewrite Z.land_ones, Z.shiftr_div_pow2 by lia. reflexivity.
Qed.

Lemma speed_mod p : speed p = (as_byte p / 8) mod 32.
Proof.
  unfold speed. change 31 with (Z.ones 5).
  rewrite Z.land_ones, Z.shiftr_div_pow2 by lia. reflexivity.
Qed.

Lemma motor_id_range p : 0 <= motor_id p <= 3.
Proof. rewrite motor_id_mod. pose proof (Z.mod_pos_bound (as_byte p) 4). lia. Qed.

Lemma negative_range p : 0 <= negative p <= 1.
Proof. rewrite negative_mod. pose proof (Z.mod_pos_bound (as_byte p / 4) 2). lia. Qed.

Lemma speed_range p : 0 <= speed p <= 31.
Proof. rewrite speed_mod. pose proof (Z.mod_pos_bound (as_byte p / 8) 32). lia. Qed.

Lemma is_extension_spec p :
  is_extension p = true <-> negative p = 1 /\ speed p = 0.
Proof.
  unfold is_extension. pose proof (negative_range p).
  rewrite andb_true_iff, negb_true_iff, Z.eqb_neq, Z.eqb_eq. lia.
Qed.

Lemma set_as_byte_id b : 0 <= b <= 255 -> as_byte (set_as_byte b) = b.
Proof. intros H. simpl. apply Z.mod_small. lia. Qed.

Lemma Zrange_forallb (P : Z -> bool) lo n :
  forallb P (Zrange lo n) = true ->
  forall z, lo <= z < lo + Z.of_nat n -> P z = true.
Proof.
  intros H z Hz. rewrite forallb_forall in H. apply H.
  unfold Zrange. apply in_map_iff. exists (Z.to_nat (z - lo)). split.
  - lia.
  - apply in_seq. lia.
Qed.

Lemma roundtrip_table :
  forallb (fun mid =>
    forallb (fun neg =>
      forallb (fun spd => roundtrip_ok mid neg spd) (Zrange 0 32))
    (Zrange 0 2))
  (Zrange 0 4) = true.
Proof. vm_compute. reflexivity. Qed.

(** ** Arrays *)

Section Arrays.
Context {A : Type}.
Implicit Types (a : list A) (i j : Z) (v : A).

Lemma arr_get_lookup a i : 0 <= i -> arr_get a i = a !! Z.to_nat i.
Proof. intros H. unfold arr_get. now rewrite decide_True. Qed.

Lemma arr_get_in_range a i v : arr_get a i = Some v -> 0 <= i < Z.of_nat (length a).
Proof.
  unfold arr_get. destruct (decide (0 <= i)) as [H | H]; [| discriminate].
  intros E. apply lookup_lt_Some in E. lia.
Qed.

Lemma arr_get_is_Some a i : 0 <= i < Z.of_nat (length a) -> exists v, arr_get a i = Some v.
Proof.
  intros H. rewrite arr_get_lookup by lia.
  destruct (lookup_lt_is_Some_2 a (Z.to_nat i)) as [v E]; [lia |]. eauto.
Qed.

Lemma arr_set_in_range a i v :
  0 <= i < Z.of_nat (length a) -> arr_set a i v = Some (<[Z.to_nat i := v]> a).
Proof. intros H. unfold arr_set. now rewrite decide_True. Qed.

Lemma arr_set_length a a' i v : arr_set a i v = Some a' -> length a' = length a.
Proof.
  unfold arr_set. destruct (decide _); [| discriminate].
  intros [= <-]. apply length_insert.
Qed.

Lemma arr_get_set_eq a a' i v : arr_set a i v = Some a' -> arr_get a' i = Some v.
Proof.
  unfold arr_set. destruct (decide _) as [H | H]; [| discriminate].
  intros [= <-]. rewrite arr_get_lookup by lia.
  apply list_lookup_insert_eq. lia.
Qed.

Lemma arr_get_set_ne a a' i j v :
  arr_set a i v = Some a' -> j <> i -> arr_get a' j = arr_get a j.
Proof.
  unfold arr_set. destruct (decide _) as [H | H]; [| discriminate].
  intros [= <-] Hne. unfold arr_get.
  destruct (decide (0 <= j)); [| reflexivity].
  apply list_lookup_insert_ne. lia.
Qed.

Lemma arr_set_same a i v : arr_get a i = Some v -> arr_set a i v = Some a.
Proof.
  intros E. pose proof (arr_get_in_range _ _ _ E) as H.
  rewrite arr_set_in_range by assumption. f_equal.
  apply list_insert_id. now rewrite <- arr_get_lookup by lia.
Qed.
End Arrays.

(** ** Comparisons of floats *)

Lemma float_zero : Float.float_of_int 0 = S754_zero false.
Proof. reflexivity. Qed.

Lemma unit_range_not_nan x : Float.in_unit_range x = true -> x <> S754_nan.
Proof. intros H ->. discriminate H. Qed.

Lemma ltb_zero_leb x :
  x <> S754_nan ->
  Float.ltb x (Float.float_of_int 0) = negb (Float.leb (Float.float_of_int 0) x).
Proof.
  intros H. rewrite float_zero. unfold Float.ltb, Float.leb, SFltb, SFleb.
  destruct x as [sx | sx | | sx m e]; try congruence; simpl; destruct sx; reflexivity.
Qed.

Lemma abs_nonneg x :
  x <> S754_nan -> Float.leb (Float.float_of_int 0) (Float.abs x) = true.
Proof.
  intros H. rewrite float_zero.
  destruct x as [sx | sx | | sx m e]; try congruence; reflexivity.
Qed.

Lemma abs_of_nonneg x :
  Float.ltb x (Float.float_of_int 0) = false -> x <> S754_zero true -> Float.abs x = x.
Proof.
  rewrite float_zero.
  destruct x as [sx | sx | | sx m e]; simpl; try destruct sx; try reflexivity;
    try discriminate; congruence.
Qed.

Lemma abs_of_neg x :
  Float.ltb x (Float.float_of_int 0) = true -> Float.abs x = SFopp x.
Proof.
  rewrite float_zero.
  destruct x as [sx | sx | | sx m e]; simpl; try destruct sx; try reflexivity;
    discriminate.
Qed.

Lemma float_one : Float.float_of_int 1 = S754_finite false 8388608 (-23).
Proof. vm_compute. reflexivity. Qed.

Lemma float_minus_one : Float.float_of_int (-1) = S754_finite true 8388608 (-23).
Proof. vm_compute. reflexivity. Qed.

Lemma finite_leb_neg_abs m e m1 e1 :
  SFleb (S754_finite true m1 e1) (S754_finite true m e) = true ->
  SFleb (S754_finite false m e) (S754_finite false m1 e1) = true.
Proof.
  unfold SFleb, SFcompare.
  rewrite (Z.compare_antisym e e1), (Pos.compare_cont_antisym m1 m Eq).
  destruct (e ?= e1); cbn [CompOpp]; try discriminate; try reflexivity.
  destruct (Pos.compare_cont Eq m m1); cbn [CompOpp]; try discriminate; reflexivity.
Qed.

Lemma abs_le_one x :
  Float.in_unit_range x = true -> Float.leb (Float.abs x) (Float.float_of_int 1) = true.
Proof.
  unfold Float.in_unit_range, Float.leb, Float.abs.
  rewrite andb_true_iff, float_one, float_minus_one.
  intros [Hlo Hhi].
  destruct x as [sx | sx | | sx m e]; try destruct sx; try discriminate;
    try assumption; try reflexivity.
  apply finite_leb_neg_abs. exact Hlo.
Qed.

(** ** Motor *)

Lemma drive_idempotent spd m : drive spd (drive spd m) = drive spd m.
Proof. reflexivity. Qed.

Lemma drive_level spd m :
  level (dir (drive spd m)) = if Float.ltb spd (Float.float_of_int 0) then 0 else 1.
Proof. unfold drive. simpl. now destruct (Float.ltb _ _). Qed.

Lemma drive_keeps_binding spd m :
  pwm_pin (pwm (drive spd m)) = pwm_pin (pwm m) /\
  dout_pin (dir (drive spd m)) = dout_pin (dir m) /\
  period_us (pwm (drive spd m)) = period_us (pwm m).
Proof. now unfold drive. Qed.

Lemma drive_motor_in_range ms i spd :
  0 <= i < Z.of_nat (length ms) ->
  exists m, arr_get ms i = Some m /\
            drive_motor i spd ms = Some (<[Z.to_nat i := drive spd m]> ms).
Proof.
  intros H. destruct (arr_get_is_Some ms i H) as [m E].
  exists m. split; [assumption |].
  unfold drive_motor. rewrite E. simpl. now apply arr_set_in_range.
Qed.

Lemma drive_motor_twice ms ms' i spd :
  drive_motor i spd ms = Some ms' -> drive_motor i spd ms' = Some ms'.
Proof.
  unfold drive_motor. destruct (arr_get ms i) as [m |] eqn:E; [| discriminate].
  simpl. intros Hset. rewrite (arr_get_set_eq _ _ _ _ Hset). simpl.
  rewrite drive_idempotent. apply arr_set_same. now apply (arr_get_set_eq ms).
Qed.

(** Every speed the loop passes to [drive] lies in [-1,1]: the quotients
    [z / 31.0] for [z] from -31 to 31. *)
Lemma ratio_table :
  forallb (fun z => Float.in_unit_range (Float.ratio z 31)) (Zrange (-31) 63) = true.
Proof. vm_compute. reflexivity. Qed.

Lemma normalized_speed_in_unit_range p :
  Float.in_unit_range (normalized_speed p) = true.
Proof.
  unfold normalized_speed. pose proof (speed_range p) as Hs.
  apply (Zrange_forallb _ (-31) 63 ratio_table).
  destruct (negative p =? 0); lia.
Qed.

Lemma full_speed : Float.ratio 31 31 = Float.float_of_int 1.
Proof. vm_compute. reflexivity. Qed.

(** ** The steps of the loop *)

Lemma ingest_idle s : rx (rpi s) = [] -> ingest s = s.
Proof. intros H. unfold ingest, readable. now rewrite H. Qed.

Lemma ingest_byte s c rest :
  rx (rpi s) = c :: rest ->
  ingest s = {| rpi := {| rx := rest; tx := tx (rpi s) |}; motors := motors s;
               pots := pots s; n_adc := n_adc s; adc_results := adc_results s;
               packet := set_as_byte c |}.
Proof. intros H. unfold ingest, readable, getc. now rewrite H. Qed.

Lemma ingest_frame s :
  motors (ingest s) = motors s /\ pots (ingest s) = pots s /\
  n_adc (ingest s) = n_adc s /\ adc_results (ingest s) = adc_results s /\
  tx (rpi (ingest s)) = tx (rpi s).
Proof.
  unfold ingest, readable, getc. destruct (rx (rpi s)); simpl; auto.
Qed.

Lemma act_motors_total req ms :
  length ms = 4%nat ->
  (forall i spd, req = Some (i, spd) -> 0 <= i <= 3) ->
  exists ms', act_motors req ms = Some ms' /\ length ms' = 4%nat.
Proof.
  intros Hlen Hreq. destruct req as [[i spd] |]; simpl.
  - specialize (Hreq i spd eq_refl).
    destruct (drive_motor_in_range ms i spd) as (m & _ & E); [lia |].
    rewrite E. eexists. split; [reflexivity |]. now rewrite length_insert.
  - eauto.
Qed.

Lemma drive_request_index p i spd : drive_request p = Some (i, spd) -> 0 <= i <= 3.
Proof.
  unfold drive_request. destruct (is_extension p); [discriminate |].
  intros [= <- _]. apply motor_id_range.
Qed.

Lemma act_unfold s ms :
  act_motors (drive_request (packet s)) (motors s) = Some ms ->
  act s = Some {| rpi := rpi s; motors := ms; pots := pots s; n_adc := n_adc s;
                  adc_results := adc_results s; packet := packet s |}.
Proof. intros H. unfold act. now rewrite H. Qed.

Lemma act_inv s s' :
  act s = Some s' ->
  act_motors (drive_request (packet s)) (motors s) = Some (motors s') /\
  rpi s' = rpi s /\ pots s' = pots s /\ n_adc s' = n_adc s /\
  adc_results s' = adc_results s /\ packet s' = packet s.
Proof.
  unfold act. destruct (act_motors _ _) as [ms |]; [| discriminate].
  simpl. intros [= <-]. simpl. repeat split.
Qed.

Lemma act_total s :
  length (motors s) = 4%nat ->
  exists s', act s = Some s' /\ length (motors s') = 4%nat.
Proof.
  intros Hlen.
  destruct (act_motors_total (drive_request (packet s)) (motors s) Hlen)
    as (ms & E & Hlen'); [apply drive_request_index |].
  rewrite (act_unfold _ _ E). eauto.
Qed.

Lemma sample_extra_spec env ps k : forall i res,
  0 <= i ->
  i + Z.of_nat k <= Z.of_nat (length ps) ->
  i + Z.of_nat k <= Z.of_nat (length res) ->
  exists res', sample_extra env ps k i res = Some res' /\
    length res' = length res /\
    (forall j, i <= j < i + Z.of_nat k ->
       exists a, arr_get ps j = Some a /\ arr_get res' j = Some (read_u16 env a)) /\
    (forall j, ~ (i <= j < i + Z.of_nat k) -> arr_get res' j = arr_get res j).
Proof.
  induction k as [| k IH]; intros i res Hi Hps Hres.
  - exists res. simpl. repeat split; auto. intros j Hj. lia.
  - destruct (arr_get_is_Some ps i) as [a Ea]; [lia |].
    simpl. rewrite Ea. simpl.
    assert (Hset : arr_set res i (read_u16 env a)
                   = Some (<[Z.to_nat i := read_u16 env a]> res))
      by (apply arr_set_in_range; lia).
    rewrite Hset. simpl.
    destruct (IH (i + 1) (<[Z.to_nat i := read_u16 env a]> res))
      as (res' & E & Hlen & Hin & Hout); [lia | lia | rewrite length_insert; lia |].
    exists res'. split; [assumption |]. split; [now rewrite Hlen, length_insert |].
    split.
    + intros j Hj. destruct (Z.eq_dec j i) as [-> | Hne].
      * exists a. split; [assumption |].
        rewrite Hout by lia. now apply (arr_get_set_eq res).
      * apply Hin. lia.
    + intros j Hj. rewrite Hout by lia.
      apply (arr_get_set_ne res _ i j _ Hset). lia.
Qed.

Lemma sample_active_spec env n res :
  2 <= n <= 6 -> length res = Z.to_nat n ->
  exists res', sample_active env main_pots n res = Some res' /\
    length res' = Z.to_nat n /\
    arr_get res' (n - 2) = Some (read_u16 env {| ain_pin := p19 |}) /\
    arr_get res' (n - 1) = Some (read_u16 env {| ain_pin := p20 |}) /\
    (forall j, 0 <= j < n - 2 ->
       exists a, arr_get main_pots j = Some a /\ arr_get res' j = Some (read_u16 env a)).
Proof.
  intros Hn Hlen. unfold sample_active.
  destruct (sample_extra_spec env main_pots (Z.to_nat (n - 2)) 0 res)
    as (res1 & E1 & Hlen1 & Hin1 & _); [lia | simpl; lia | lia |].
  rewrite E1. simpl.
  change (arr_get main_pots 4) with (Some {| ain_pin := p19 |}).
  change (arr_get main_pots 5) with (Some {| ain_pin := p20 |}). simpl.
  assert (E2 : arr_set res1 (n - 2) (read_u16 env {| ain_pin := p19 |})
               = Some (<[Z.to_nat (n - 2) := read_u16 env {| ain_pin := p19 |}]> res1))
    by (apply arr_set_in_range; lia).
  rewrite E2. simpl.
  set (res2 := <[Z.to_nat (n - 2) := _]> res1) in *.
  assert (Hlen2 : length res2 = length res1) by apply length_insert.
  assert (E3 : arr_set res2 (n - 1) (read_u16 env {| ain_pin := p20 |})
               = Some (<[Z.to_nat (n - 1) := read_u16 env {| ain_pin := p20 |}]> res2))
    by (apply arr_set_in_range; lia).
  rewrite E3. eexists. split; [reflexivity |].
  split; [rewrite length_insert; lia |].
  split; [| split].
  - rewrite (arr_get_set_ne _ _ _ _ _ E3) by lia. apply (arr_get_set_eq _ _ _ _ E2).
  - apply (arr_get_set_eq _ _ _ _ E3).
  - intros j Hj. destruct (Hin1 j) as (a & Ea & Er); [lia |].
    exists a. split; [assumption |].
    rewrite (arr_get_set_ne _ _ _ _ _ E3) by lia.
    rewrite (arr_get_set_ne _ _ _ _ _ E2) by lia. assumption.
Qed.

Lemma sample_inv env s s' :
  sample env s = Some s' ->
  sample_active env (pots s) (n_adc s) (adc_results s) = Some (adc_results s') /\
  rpi s' = rpi s /\ motors s' = motors s /\ pots s' = pots s /\
  n_adc s' = n_adc s /\ packet s' = packet s.
Proof.
  unfold sample. destruct (sample_active _ _ _ _) as [res |]; [| discriminate].
  simpl. intros [= <-]. simpl. repeat split.
Qed.

Lemma sample_total env s :
  wf_state s -> exists s', sample env s = Some s' /\ wf_state s'.
Proof.
  intros (Hm & Hp & Hn & Hr).
  destruct (sample_active_spec env (n_adc s) (adc_results s) Hn Hr)
    as (res & E & Hlen & _).
  unfold sample. rewrite Hp, E. simpl. eexists. split; [reflexivity |].
  repeat split; simpl; auto; lia.
Qed.

Lemma report_tokens_total res k : forall i link,
  0 <= i -> i + Z.of_nat k <= Z.of_nat (length res) ->
  exists link', report_tokens res k i link = Some link' /\ rx link' = rx link.
Proof.
  induction k as [| k IH]; intros i link Hi Hlen; simpl.
  - eauto.
  - destruct (arr_get_is_Some res i) as [v E]; [lia |].
    rewrite E. simpl.
    destruct (IH (i + 1) (printf (String.append "0x" (String.append (format_X v) " ")) link))
      as (link' & E' & Hrx); [lia | lia |].
    exists link'. split; assumption.
Qed.

Lemma report_tokens_rx res k : forall i link link',
  report_tokens res k i link = Some link' -> rx link' = rx link.
Proof.
  induction k as [| k IH]; simpl; intros i link link' H.
  - now injection H as <-.
  - destruct (arr_get res i) as [v |]; [| discriminate]. simpl in H.
    now rewrite (IH _ _ _ H).
Qed.

Lemma report_inv s s' :
  report s = Some s' ->
  motors s' = motors s /\ pots s' = pots s /\ n_adc s' = n_adc s /\
  adc_results s' = adc_results s /\ packet s' = packet s /\
  exists link, report_tokens (adc_results s) (Z.to_nat (n_adc s)) 0 (rpi s) = Some link /\
               rpi s' = printf newline link.
Proof.
  unfold report. destruct (report_tokens _ _ _ _) as [link |]; [| discriminate].
  simpl. intros [= <-]. simpl. repeat split. eauto.
Qed.

Lemma report_total s :
  wf_state s ->
  exists s', report s = Some s' /\ wf_state s' /\ rx (rpi s') = rx (rpi s).
Proof.
  intros (Hm & Hp & Hn & Hr).
  destruct (report_tokens_total (adc_results s) (Z.to_nat (n_adc s)) 0 (rpi s))
    as (link & E & Hrx); [lia | lia |].
  unfold report. rewrite E. simpl. eexists. split; [reflexivity |].
  split; [repeat split; simpl; auto; lia | assumption].
Qed.

Lemma wf_ingest s : wf_state s -> wf_state (ingest s).
Proof.
  unfold wf_state. destruct (ingest_frame s) as (-> & -> & -> & -> & _). auto.
Qed.

Lemma wf_act s s' : wf_state s -> act s = Some s' -> wf_state s'.
Proof.
  intros (Hm & Hp & Hn & Hr) E.
  destruct (act_total s Hm) as (s'' & E' & Hm'). rewrite E in E'. injection E' as <-.
  destruct (act_inv _ _ E) as (_ & _ & Ep & En & Er & _).
  unfold wf_state. rewrite Ep, En, Er. repeat split; auto; lia.
Qed.

(** An iteration started in a well-formed state runs to its end, and the
    state it leaves is well-formed. *)
Lemma loop_body_total env s :
  wf_state s ->
  exists s1 s2 s3,
    act (ingest s) = Some s1 /\ sample env s1 = Some s2 /\ report s2 = Some s3 /\
    loop_body env s = Some s3 /\ wf_state s3.
Proof.
  intros Hwf. apply wf_ingest in Hwf.
  destruct (act_total (ingest s)) as (s1 & E1 & _); [apply Hwf |].
  pose proof (wf_act _ _ Hwf E1) as Hwf1.
  destruct (sample_total env s1 Hwf1) as (s2 & E2 & Hwf2).
  destruct (report_total s2 Hwf2) as (s3 & E3 & Hwf3 & _).
  exists s1, s2, s3. unfold loop_body. rewrite E1. simpl. rewrite E2. simpl.
  auto.
Qed.

Lemma main_init_wf pending stale : wf_state (main_init pending stale).
Proof. repeat split; simpl; lia. Qed.

Lemma append_assoc (a b c : string) :
  String.append (String.append a b) c = String.append a (String.append b c).
Proof. induction a as [| ch a IH]; simpl; [reflexivity | now rewrite IH]. Qed.

Lemma list_of_two (l : list Z) (x y : Z) :
  length l = 2%nat -> arr_get l 0 = Some x -> arr_get l 1 = Some y -> l = [x; y].
Proof.
  destruct l as [| a [| b [| c l]]]; try discriminate.
  unfold arr_get. simpl. intros _ [= ->] [= ->]. reflexivity.
Qed.

(** What an iteration leaves behind, in terms of its steps. *)
Lemma loop_body_inv env s s' :
  loop_body env s = Some s' ->
  exists link,
    act_motors (drive_request (packet (ingest s))) (motors s) = Some (motors s') /\
    packet s' = packet (ingest s) /\
    pots s' = pots s /\ n_adc s' = n_adc s /\
    sample_active env (pots s) (n_adc s) (adc_results s) = Some (adc_results s') /\
    report_tokens (adc_results s') (Z.to_nat (n_adc s)) 0 (rpi (ingest s)) = Some link /\
    rpi s' = printf newline link.
Proof.
  unfold loop_body.
  destruct (act (ingest s)) as [s1 |] eqn:E1; [| discriminate]. simpl.
  destruct (sample env s1) as [s2 |] eqn:E2; [| discriminate]. simpl.
  intros E3.
  destruct (ingest_frame s) as (Im & Ip & In_ & Ir & _).
  destruct (act_inv _ _ E1) as (Am & Al & Ap & An & Ar & Ak).
  destruct (sample_inv _ _ _ E2) as (Sa & Sl & Sm & Sp & Sn & Sk).
  destruct (report_inv _ _ E3) as (Rm & Rp & Rn & Rr & Rk & link & Rt & Rl).
  exists link.
  split; [rewrite Rm, Sm, <- Im; exact Am |].
  split; [congruence |].
  split; [congruence |].
  split; [congruence |].
  split; [rewrite Rr, <- Ip, <- In_, <- Ir, <- Ap, <- An, <- Ar; exact Sa |].
  split; [rewrite Rr, <- In_, <- An, <- Sn, <- Al, <- Sl; exact Rt |].
  exact Rl.
Qed.

(** * The protocol *)

(** C1.  Every byte value decodes: the packet has [motor_id] in [0,3] and
    [speed] in [0,31], and the loop takes its extension branch (makes no
    drive call) exactly when the [negative] bit is set and [speed] is 0. *)
Theorem decode_total_in_range (b : Z) :
  0 <= b <= 255 ->
  as_byte (decode b) = b /\
  0 <= motor_id (decode b) <= 3 /\
  0 <= speed (decode b) <= 31 /\
  (is_extension (decode b) = true <-> negative (decode b) = 1 /\ speed (decode b) = 0) /\
  (drive_request (decode b) = None <-> is_extension (decode b) = true).
Proof.
  intros Hb. split; [now apply set_as_byte_id |].
  split; [apply motor_id_range |].
  split; [apply speed_range |].
  split; [apply is_extension_spec |].
  unfold drive_request. destruct (is_extension (decode b)); split; congruence.
Qed.

Lemma decode_total_in_range_witness :
  0 <= 65 <= 255 /\
  as_byte (decode 65) = 65 /\
  0 <= motor_id (decode 65) <= 3 /\
  0 <= speed (decode 65) <= 31 /\
  (is_extension (decode 65) = true <-> negative (decode 65) = 1 /\ speed (decode 65) = 0) /\
  (drive_request (decode 65) = None <-> is_extension (decode 65) = true).
Proof. split; [lia | apply (decode_total_in_range 65); lia]. Defined.

(** C5.  Packing a triple [(motor_id, negative, speed)] taken from the
    valid ranges into a command byte and decoding that byte gives the
    triple back. *)
Theorem encode_decode_roundtrip (mid neg spd : Z) :
  0 <= mid <= 3 -> 0 <= neg <= 1 -> 0 <= spd <= 31 ->
  motor_id (decode (encode mid neg spd)) = mid /\
  negative (decode (encode mid neg spd)) = neg /\
  speed (decode (encode mid neg spd)) = spd.
Proof.
  intros Hm Hn Hs.
  pose proof (Zrange_forallb _ 0 4 roundtrip_table mid ltac:(lia)) as H1.
  cbv beta in H1.
  pose proof (Zrange_forallb _ 0 2 H1 neg ltac:(lia)) as H2.
  cbv beta in H2.
  pose proof (Zrange_forallb _ 0 32 H2 spd ltac:(lia)) as H3.
  cbv beta in H3. unfold roundtrip_ok in H3.
  rewrite !andb_true_iff, !Z.eqb_eq in H3. unfold decode. tauto.
Qed.

Lemma encode_decode_roundtrip_witness :
  0 <= 3 <= 3 /\ 0 <= 1 <= 1 /\ 0 <= 21 <= 31 /\
  motor_id (decode (encode 3 1 21)) = 3 /\
  negative (decode (encode 3 1 21)) = 1 /\
  speed (decode (encode 3 1 21)) = 21.
Proof.
  split; [lia |]. split; [lia |]. split; [lia |].
  apply (encode_decode_roundtrip 3 1 21); lia.
Defined.

(** C3, as the code has it.  The byte [0b00000100] decodes to
    [negative = 1], [speed = 0], [motor_id = 0]; it takes the extension
    branch and makes no drive call, whatever the motors' state.  The byte
    [0b00100000] decodes to [motor_id = 0], [negative = 0], [speed = 4] and
    requests a drive of motor 0. *)
Theorem extension_id_0_byte :
  (negative (decode 4) = 1 /\ speed (decode 4) = 0 /\ motor_id (decode 4) = 0 /\
   is_extension (decode 4) = true /\
   drive_request (decode 4) = None /\
   forall ms, act_motors (drive_request (decode 4)) ms = Some ms) /\
  (motor_id (decode 32) = 0 /\ negative (decode 32) = 0 /\ speed (decode 32) = 4 /\
   drive_request (decode 32) = Some (0, Float.ratio 4 31)).
Proof.
  split.
  - repeat (split; [vm_compute; reflexivity |]). intros ms. reflexivity.
  - repeat (split; [vm_compute; reflexivity |]). vm_compute. reflexivity.
Qed.

(** C3, as stated, fails: the byte [0b00100000] has its [negative] bit
    clear and a non-zero speed, and it requests a drive. *)
Lemma byte_32_is_a_drive_command :
  ~ (negative (decode 32) = 1 /\ speed (decode 32) = 0 /\ motor_id (decode 32) = 0 /\
     drive_request (decode 32) = None).
Proof. intros (H & _). vm_compute in H. discriminate H. Qed.

(** * The motor *)

(** C7, as the code has it.  A constructed [Motor] has zero duty, its
    direction output low, which is the reverse level, and a PWM period of
    40 microseconds; the pins are the ones given. *)
Theorem Motor_init_outputs (pin_pwm pin_dir : PinName) :
  duty (pwm (Motor_init pin_pwm pin_dir)) = S754_zero false /\
  level (dir (Motor_init pin_pwm pin_dir)) = 0 /\
  level (dir (Motor_init pin_pwm pin_dir)) = reverse_level /\
  period_us (pwm (Motor_init pin_pwm pin_dir)) = 40 /\
  pwm_pin (pwm (Motor_init pin_pwm pin_dir)) = pin_pwm /\
  dout_pin (dir (Motor_init pin_pwm pin_dir)) = pin_dir.
Proof. repeat split. Qed.

(** C7, as stated, fails: the low level of the direction output is not
    the forward level. *)
Lemma Motor_init_direction_not_forward :
  ~ (duty (pwm (Motor_init p21 p11)) = S754_zero false /\
     level (dir (Motor_init p21 p11)) = 0 /\
     level (dir (Motor_init p21 p11)) = forward_level /\
     period_us (pwm (Motor_init p21 p11)) = 40).
Proof. intros (_ & _ & H & _). vm_compute in H. discriminate H. Qed.

(** C4.  [motors[i].drive(s)] for a speed [s] in [-1,1] puts the direction
    output of motor [i] at the forward level exactly when [s >= 0] and at
    the reverse level exactly when [s < 0], sets the duty cycle to
    [abs(s)], which lies in [0,1], and a second identical call changes
    nothing. *)
Theorem drive_sets_direction_and_duty (ms : list Motor) (i : Z) (m : Motor) (s : spec_float) :
  arr_get ms i = Some m ->
  Float.in_unit_range s = true ->
  exists ms' m',
    drive_motor i s ms = Some ms' /\
    arr_get ms' i = Some m' /\
    (level (dir m') = forward_level <-> Float.leb (Float.float_of_int 0) s = true) /\
    (level (dir m') = reverse_level <-> Float.ltb s (Float.float_of_int 0) = true) /\
    duty (pwm m') = Float.abs s /\
    Float.leb (Float.float_of_int 0) (duty (pwm m')) = true /\
    Float.leb (duty (pwm m')) (Float.float_of_int 1) = true /\
    drive_motor i s ms' = Some ms'.
Proof.
  intros Hm Hs.
  pose proof (unit_range_not_nan s Hs) as Hnan.
  pose proof (arr_get_in_range _ _ _ Hm) as Hi.
  destruct (drive_motor_in_range ms i s Hi) as (m0 & Em & Ed).
  rewrite Hm in Em. injection Em as <-.
  exists (<[Z.to_nat i := drive s m]> ms), (drive s m).
  split; [assumption |].
  split; [rewrite arr_get_lookup by lia; apply list_lookup_insert_eq; lia |].
  rewrite drive_level, ltb_zero_leb by assumption.
  unfold forward_level, reverse_level.
  split; [destruct (Float.leb _ s); simpl; split; congruence |].
  split; [destruct (Float.leb _ s); simpl; split; congruence |].
  split; [reflexivity |].
  split; [now apply abs_nonneg |].
  split; [now apply abs_le_one |].
  now apply (drive_motor_twice ms).
Qed.

Lemma drive_sets_direction_and_duty_witness :
  arr_get main_motors 2 = Some (Motor_init p23 p13) /\
  Float.in_unit_range (Float.ratio (-16) 31) = true /\
  exists ms' m',
    drive_motor 2 (Float.ratio (-16) 31) main_motors = Some ms' /\
    arr_get ms' 2 = Some m' /\
    (level (dir m') = forward_level <->
       Float.leb (Float.float_of_int 0) (Float.ratio (-16) 31) = true) /\
    (level (dir m') = reverse_level <->
       Float.ltb (Float.ratio (-16) 31) (Float.float_of_int 0) = true) /\
    duty (pwm m') = Float.abs (Float.ratio (-16) 31) /\
    Float.leb (Float.float_of_int 0) (duty (pwm m')) = true /\
    Float.leb (duty (pwm m')) (Float.float_of_int 1) = true /\
    drive_motor 2 (Float.ratio (-16) 31) ms' = Some ms'.
Proof.
  split; [vm_compute; reflexivity |]. split; [vm_compute; reflexivity |].
  apply (drive_sets_direction_and_duty main_motors 2 (Motor_init p23 p13));
    vm_compute; reflexivity.
Defined.

(** * The act step *)

(** C10.  When the packet has its [negative] bit set and zero [speed], the
    act step returns the state it was given: no motor's duty cycle or
    direction output changes, whichever of the four ids the packet
    carries. *)
Theorem extension_changes_no_motor (s : State) :
  negative (packet s) = 1 -> speed (packet s) = 0 ->
  0 <= motor_id (packet s) <= 3 /\
  drive_request (packet s) = None /\
  act s = Some s.
Proof.
  intros Hn Hs.
  assert (E : is_extension (packet s) = true) by (apply is_extension_spec; auto).
  split; [apply motor_id_range |].
  unfold act, drive_request. rewrite E. simpl. split; [reflexivity |].
  now destruct s.
Qed.

Lemma extension_changes_no_motor_witness :
  negative (packet (main_init [] 7)) = 1 /\ speed (packet (main_init [] 7)) = 0 /\
  0 <= motor_id (packet (main_init [] 7)) <= 3 /\
  drive_request (packet (main_init [] 7)) = None /\
  act (main_init [] 7) = Some (main_init [] 7).
Proof.
  split; [reflexivity |]. split; [reflexivity |].
  apply (extension_changes_no_motor (main_init [] 7)); reflexivity.
Defined.

(** C9.  When the packet is a drive command for motor [i], the act step
    succeeds and leaves every other motor as it was; motor [i] keeps its
    pins and its PWM period; the analog inputs, the channel count, the
    results buffer, the serial link and the packet are unchanged. *)
Theorem drive_command_frame (s : State) :
  wf_state s -> is_extension (packet s) = false ->
  exists s' m m',
    act s = Some s' /\
    (forall j, j <> motor_id (packet s) -> arr_get (motors s') j = arr_get (motors s) j) /\
    length (motors s') = length (motors s) /\
    arr_get (motors s) (motor_id (packet s)) = Some m /\
    arr_get (motors s') (motor_id (packet s)) = Some m' /\
    m' = drive (normalized_speed (packet s)) m /\
    pwm_pin (pwm m') = pwm_pin (pwm m) /\
    dout_pin (dir m') = dout_pin (dir m) /\
    period_us (pwm m') = period_us (pwm m) /\
    pots s' = pots s /\ n_adc s' = n_adc s /\
    adc_results s' = adc_results s /\ rpi s' = rpi s /\ packet s' = packet s.
Proof.
  intros (Hlen & _) Hext.
  pose proof (motor_id_range (packet s)) as Hid.
  destruct (drive_motor_in_range (motors s) (motor_id (packet s))
              (normalized_speed (packet s))) as (m & Em & Ed); [lia |].
  assert (Ea : act_motors (drive_request (packet s)) (motors s)
               = Some (<[Z.to_nat (motor_id (packet s))
                         := drive (normalized_speed (packet s)) m]> (motors s))).
  { unfold drive_request. rewrite Hext. exact Ed. }
  eexists. exists m, (drive (normalized_speed (packet s)) m).
  split; [apply (act_unfold _ _ Ea) |]. simpl.
  split.
  { intros j Hj. unfold arr_get. destruct (decide (0 <= j)); [| reflexivity].
    apply list_lookup_insert_ne. lia. }
  split; [apply length_insert |].
  split; [assumption |].
  split; [rewrite arr_get_lookup by lia; apply list_lookup_insert_eq; lia |].
  repeat split.
Qed.

Lemma drive_command_frame_witness :
  wf_state (main_init [] 65) /\ is_extension (packet (main_init [] 65)) = false /\
  exists s' m m',
    act (main_init [] 65) = Some s' /\
    (forall j, j <> motor_id (packet (main_init [] 65)) ->
       arr_get (motors s') j = arr_get (motors (main_init [] 65)) j) /\
    length (motors s') = length (motors (main_init [] 65)) /\
    arr_get (motors (main_init [] 65)) (motor_id (packet (main_init [] 65))) = Some m /\
    arr_get (motors s') (motor_id (packet (main_init [] 65))) = Some m' /\
    m' = drive (normalized_speed (packet (main_init [] 65))) m /\
    pwm_pin (pwm m') = pwm_pin (pwm m) /\
    dout_pin (dir m') = dout_pin (dir m) /\
    period_us (pwm m') = period_us (pwm m) /\
    pots s' = pots (main_init [] 65) /\ n_adc s' = n_adc (main_init [] 65) /\
    adc_results s' = adc_results (main_init [] 65) /\ rpi s' = rpi (main_init [] 65) /\
    packet s' = packet (main_init [] 65).
Proof.
  split; [repeat split; simpl; lia |]. split; [reflexivity |].
  apply (drive_command_frame (main_init [] 65)); [repeat split; simpl; lia | reflexivity].
Defined.

(** * The sample step *)

(** C8.  With [n_adc] channels in use, the sample step succeeds and leaves
    [n_adc] readings, each a 16-bit unsigned value: the last two are read
    from the left and the right flipper position inputs ([p19] and [p20],
    the fifth and sixth analog inputs), and entry [j] for [j < n_adc - 2]
    is read from analog input [j].  Nothing else changes, the analog input
    bindings included. *)
Theorem sample_channel_order (env : Analog) (s : State) :
  wf_state s ->
  exists s',
    sample env s = Some s' /\
    length (adc_results s') = Z.to_nat (n_adc s) /\
    arr_get (adc_results s') (n_adc s - 2) = Some (read_u16 env {| ain_pin := p19 |}) /\
    arr_get (adc_results s') (n_adc s - 1) = Some (read_u16 env {| ain_pin := p20 |}) /\
    (forall j, 0 <= j < n_adc s - 2 ->
       exists a, arr_get main_pots j = Some a /\
                 arr_get (adc_results s') j = Some (read_u16 env a)) /\
    (forall j v, arr_get (adc_results s') j = Some v -> 0 <= v <= 65535) /\
    pots s' = pots s /\ n_adc s' = n_adc s /\
    motors s' = motors s /\ rpi s' = rpi s /\ packet s' = packet s.
Proof.
  intros Hwf. destruct (sample_total env s Hwf) as (s' & E & _).
  destruct Hwf as (_ & Hp & Hn & Hr).
  destruct (sample_inv _ _ _ E) as (Ea & El & Em & Ep & En & Ek).
  destruct (sample_active_spec env (n_adc s) (adc_results s) Hn Hr)
    as (res & Er & Hlen & Hleft & Hright & Hlead).
  rewrite Hp, Er in Ea. injection Ea as Ea. subst res.
  exists s'. repeat (split; [assumption |]).
  split; [| auto].
  intros j v Hj.
  assert (Hu : forall a, 0 <= read_u16 env a <= 65535).
  { intros a. unfold read_u16. pose proof (Z.mod_pos_bound (env (ain_pin a)) 65536). lia. }
  pose proof (arr_get_in_range _ _ _ Hj) as Hrange. rewrite Hlen in Hrange.
  destruct (Z.eq_dec j (n_adc s - 2)) as [-> | H2].
  { rewrite Hleft in Hj. injection Hj as <-. apply Hu. }
  destruct (Z.eq_dec j (n_adc s - 1)) as [-> | H1].
  { rewrite Hright in Hj. injection Hj as <-. apply Hu. }
  destruct (Hlead j) as (a & _ & Ej); [lia |].
  rewrite Ej in Hj. injection Hj as <-. apply Hu.
Qed.

Lemma sample_channel_order_witness :
  wf_state (main_init [] 0) /\
  exists s',
    sample flipper_readings (main_init [] 0) = Some s' /\
    length (adc_results s') = Z.to_nat (n_adc (main_init [] 0)) /\
    arr_get (adc_results s') (n_adc (main_init [] 0) - 2)
      = Some (read_u16 flipper_readings {| ain_pin := p19 |}) /\
    arr_get (adc_results s') (n_adc (main_init [] 0) - 1)
      = Some (read_u16 flipper_readings {| ain_pin := p20 |}) /\
    (forall j, 0 <= j < n_adc (main_init [] 0) - 2 ->
       exists a, arr_get main_pots j = Some a /\
                 arr_get (adc_results s') j = Some (read_u16 flipper_readings a)) /\
    (forall j v, arr_get (adc_results s') j = Some v -> 0 <= v <= 65535) /\
    pots s' = pots (main_init [] 0) /\ n_adc s' = n_adc (main_init [] 0) /\
    motors s' = motors (main_init [] 0) /\ rpi s' = rpi (main_init [] 0) /\
    packet s' = packet (main_init [] 0).
Proof.
  split; [repeat split; simpl; lia |].
  apply (sample_channel_order flipper_readings (main_init [] 0)).
  repeat split; simpl; lia.
Defined.

(** * The loop *)

Lemma act_motors_twice req ms ms' :
  act_motors req ms = Some ms' -> act_motors req ms' = Some ms'.
Proof.
  destruct req as [[i spd] |]; simpl.
  - apply drive_motor_twice.
  - intros _. reflexivity.
Qed.

(** C6.  With no byte waiting, ingest leaves the state as it is.  Two
    iterations in a row that find no byte both run to their end with the
    packet they started from, both act on the drive request of that packet
    (the same motor index and speed, or none for an extension packet), and
    the second leaves the motors as the first left them. *)
Theorem idle_iterations_repeat_command (env1 env2 : Analog) (s : State) :
  wf_state s -> rx (rpi s) = [] ->
  exists s1 s2,
    ingest s = s /\
    loop_body env1 s = Some s1 /\
    rx (rpi s1) = [] /\
    loop_body env2 s1 = Some s2 /\
    packet s1 = packet s /\ packet s2 = packet s /\
    act_motors (drive_request (packet s)) (motors s) = Some (motors s1) /\
    act_motors (drive_request (packet s)) (motors s1) = Some (motors s2) /\
    motors s2 = motors s1.
Proof.
  intros Hwf Hrx.
  pose proof (ingest_idle s Hrx) as Hi.
  destruct (loop_body_total env1 s Hwf) as (_ & _ & s1 & _ & _ & _ & E1 & Hwf1).
  destruct (loop_body_inv _ _ _ E1) as (l1 & Am1 & Pk1 & _ & Hn1 & _ & Rt1 & Rl1).
  rewrite Hi in Am1, Pk1, Rt1.
  assert (Hrx1 : rx (rpi s1) = []).
  { rewrite Rl1. simpl. now rewrite (report_tokens_rx _ _ _ _ _ Rt1). }
  pose proof (ingest_idle s1 Hrx1) as Hi1.
  destruct (loop_body_total env2 s1 Hwf1) as (_ & _ & s2 & _ & _ & _ & E2 & _).
  destruct (loop_body_inv _ _ _ E2) as (l2 & Am2 & Pk2 & _).
  rewrite Hi1, Pk1 in Am2. rewrite Hi1, Pk1 in Pk2.
  exists s1, s2. repeat (split; [assumption |]).
  pose proof (act_motors_twice _ _ _ Am1) as Hsame. congruence.
Qed.

Lemma idle_iterations_repeat_command_witness :
  wf_state (main_init [] 65) /\ rx (rpi (main_init [] 65)) = [] /\
  exists s1 s2,
    ingest (main_init [] 65) = main_init [] 65 /\
    loop_body flipper_readings (main_init [] 65) = Some s1 /\
    rx (rpi s1) = [] /\
    loop_body flipper_readings s1 = Some s2 /\
    packet s1 = packet (main_init [] 65) /\ packet s2 = packet (main_init [] 65) /\
    act_motors (drive_request (packet (main_init [] 65))) (motors (main_init [] 65))
      = Some (motors s1) /\
    act_motors (drive_request (packet (main_init [] 65))) (motors s1) = Some (motors s2) /\
    motors s2 = motors s1.
Proof.
  split; [repeat split; simpl; lia |]. split; [reflexivity |].
  apply (idle_iterations_repeat_command flipper_readings flipper_readings (main_init [] 65));
    [repeat split; simpl; lia | reflexivity].
Defined.

Lemma drive_request_0x41 : drive_request (set_as_byte 0x41) = Some (1, Float.ratio 8 31).
Proof. vm_compute. reflexivity. Qed.

Lemma ratio_8_31_forward :
  Float.ltb (Float.ratio 8 31) (Float.float_of_int 0) = false /\
  Float.abs (Float.ratio 8 31) = Float.ratio 8 31.
Proof. split; vm_compute; reflexivity. Qed.

(** C2, as the code has it.  The byte [0x41] decodes to [motor_id = 1],
    [negative = 0], [speed = 8].  An iteration that reads it, with two
    channels in use on which the flipper inputs read [0x1234] and [0x0000],
    drives motor 1 forward with duty [8/31] (as a [float]), leaves the other
    motors alone, and appends exactly the line ["0x1234 0x0 "] followed by
    a newline to what was printed before. *)
Theorem byte_0x41_end_to_end (env : Analog) (s : State) (rest : list Z) :
  wf_state s -> n_adc s = 2 -> rx (rpi s) = 0x41 :: rest ->
  env p19 = 0x1234 -> env p20 = 0 ->
  exists s' m1,
    loop_body env s = Some s' /\
    motor_id (packet s') = 1 /\ negative (packet s') = 0 /\ speed (packet s') = 8 /\
    arr_get (motors s') 1 = Some m1 /\
    level (dir m1) = forward_level /\
    duty (pwm m1) = Float.ratio 8 31 /\
    (forall j, j <> 1 -> arr_get (motors s') j = arr_get (motors s) j) /\
    adc_results s' = [0x1234; 0] /\
    tx (rpi s') = String.append (tx (rpi s)) (String.append "0x1234 0x0 " newline).
Proof.
  intros Hwf Hn Hrx H19 H20.
  destruct (loop_body_total env s Hwf) as (_ & _ & s' & _ & _ & _ & E & _).
  destruct (loop_body_inv _ _ _ E) as (link & Am & Pk & _ & _ & Sa & Rt & Rl).
  destruct Hwf as (Hlen & Hp & _ & Hr).
  rewrite (ingest_byte s _ _ Hrx) in Am, Pk, Rt. cbn [packet rpi] in Am, Pk, Rt.
  rewrite drive_request_0x41 in Am. cbn [act_motors] in Am.
  destruct (drive_motor_in_range (motors s) 1 (Float.ratio 8 31)) as (m & Em & Ed); [lia |].
  rewrite Ed in Am. injection Am as Am.
  destruct (sample_active_spec env 2 (adc_results s)) as (res & Er & Hl & H0 & H1 & _);
    [lia | now rewrite Hr, Hn |].
  rewrite Hp, Hn, Er in Sa. injection Sa as Sa. subst res.
  assert (Hres : adc_results s' = [0x1234; 0]).
  { change (2 - 2) with 0 in H0. change (2 - 1) with 1 in H1.
    unfold read_u16 in H0, H1. cbn [ain_pin] in H0, H1. rewrite H19 in H0. rewrite H20 in H1.
    apply list_of_two; [exact Hl | exact H0 | exact H1]. }
  rewrite Hres, Hn in Rt. injection Rt as Rt.
  exists s', (drive (Float.ratio 8 31) m).
  split; [assumption |].
  rewrite Pk.
  split; [reflexivity |]. split; [reflexivity |]. split; [reflexivity |].
  rewrite <- Am.
  split; [rewrite arr_get_lookup by lia; apply list_lookup_insert_eq; lia |].
  split; [rewrite drive_level, (proj1 ratio_8_31_forward); reflexivity |].
  split; [apply ratio_8_31_forward |].
  split.
  { intros j Hj. unfold arr_get. destruct (decide (0 <= j)); [| reflexivity].
    apply list_lookup_insert_ne. change (Z.to_nat 1) with 1%nat. lia. }
  split; [exact Hres |].
  rewrite Rl, <- Rt. unfold printf. cbn [tx]. rewrite !append_assoc. reflexivity.
Qed.

Lemma byte_0x41_end_to_end_witness :
  wf_state (main_init [0x41] 0) /\ n_adc (main_init [0x41] 0) = 2 /\
  rx (rpi (main_init [0x41] 0)) = [0x41] /\
  flipper_readings p19 = 0x1234 /\ flipper_readings p20 = 0 /\
  exists s' m1,
    loop_body flipper_readings (main_init [0x41] 0) = Some s' /\
    motor_id (packet s') = 1 /\ negative (packet s') = 0 /\ speed (packet s') = 8 /\
    arr_get (motors s') 1 = Some m1 /\
    level (dir m1) = forward_level /\
    duty (pwm m1) = Float.ratio 8 31 /\
    (forall j, j <> 1 -> arr_get (motors s') j = arr_get (motors (main_init [0x41] 0)) j) /\
    adc_results s' = [0x1234; 0] /\
    tx (rpi s') = String.append (tx (rpi (main_init [0x41] 0)))
                                (String.append "0x1234 0x0 " newline).
Proof.
  split; [repeat split; simpl; lia |].
  split; [reflexivity |]. split; [reflexivity |].
  split; [reflexivity |]. split; [reflexivity |].
  apply (byte_0x41_end_to_end flipper_readings (main_init [0x41] 0) []);
    [repeat split; simpl; lia | reflexivity ..].
Defined.

(** C2, as stated, fails: the iteration that reads [0x41] ends with a
    packet whose [speed] field is 8, not 2, and motor 1 is not driven with
    duty [2/31]. *)
Lemma byte_0x41_speed_is_not_2 :
  ~ (exists s' m1,
       loop_body flipper_readings (main_init [0x41] 0) = Some s' /\
       motor_id (packet s') = 1 /\ negative (packet s') = 0 /\ speed (packet s') = 2 /\
       arr_get (motors s') 1 = Some m1 /\
       level (dir m1) = forward_level /\
       duty (pwm m1) = Float.ratio 2 31 /\
       tx (rpi s') = String.append (tx (rpi (main_init [0x41] 0)))
                                   (String.append "0x1234 0x0 " newline)).
Proof.
  intros (s' & m1 & E & _ & _ & Hs & _).
  vm_compute in E. injection E as <-. vm_compute in Hs. discriminate Hs.
Qed.

(** * The loop over time *)

Lemma wf_receive bytes s : wf_state s -> wf_state (receive bytes s).
Proof. intros H. exact H. Qed.

Lemma receive_nothing s : receive [] s = s.
Proof.
  destruct s as [[r t] ms ps n res pk]. unfold receive. simpl.
  now rewrite app_nil_r.
Qed.

Lemma ingest_rx s : rx (rpi (ingest s)) = tail (rx (rpi s)).
Proof.
  destruct (rx (rpi s)) as [| c r] eqn:E.
  - rewrite (ingest_idle s E). now rewrite E.
  - now rewrite (ingest_byte s c r E).
Qed.

Lemma ingest_packet s :
  packet (ingest s) = match rx (rpi s) with
                      | [] => packet s
                      | c :: _ => set_as_byte c
                      end.
Proof.
  destruct (rx (rpi s)) as [| c r] eqn:E.
  - now rewrite (ingest_idle s E).
  - now rewrite (ingest_byte s c r E).
Qed.

Lemma loop_body_rx env s s' :
  loop_body env s = Some s' -> rx (rpi s') = tail (rx (rpi s)).
Proof.
  intros E. destruct (loop_body_inv _ _ _ E) as (link & _ & _ & _ & _ & _ & Rt & Rl).
  rewrite Rl. unfold printf. cbn [rx].
  rewrite (report_tokens_rx _ _ _ _ _ Rt). apply ingest_rx.
Qed.

Lemma run_wf ticks : forall s,
  wf_state s -> exists s', run ticks s = Some s' /\ wf_state s'.
Proof.
  induction ticks as [| t ticks IH]; intros s Hwf; simpl.
  - eauto.
  - destruct (loop_body_total (analog t) (receive (arriving t) s))
      as (_ & _ & s1 & _ & _ & _ & E & Hwf1); [now apply wf_receive |].
    rewrite E. simpl. now apply IH.
Qed.

(** X1.  From the state in which [main] enters the loop, any number of
    iterations run to their end, whatever the host sends and the analog
    inputs read: no iteration indexes outside [motors], [pots] or
    [adc_results], and the arrays keep their sizes. *)
Theorem main_loop_never_out_of_bounds (pending : list Z) (stale : Z) (ticks : list Tick) :
  exists s', run ticks (main_init pending stale) = Some s' /\
             length (motors s') = 4%nat /\
             pots s' = main_pots /\
             n_adc s' = 2 /\
             length (adc_results s') = 2%nat.
Proof.
  assert (G : forall ts s, wf_state s -> n_adc s = 2 ->
              exists s', run ts s = Some s' /\ wf_state s' /\ n_adc s' = 2).
  { induction ts as [| t ts IH]; intros s Hwf Hn; simpl.
    - eauto.
    - destruct (loop_body_total (analog t) (receive (arriving t) s))
        as (_ & _ & s1 & _ & _ & _ & E & Hwf1); [now apply wf_receive |].
      rewrite E. simpl. apply IH; [assumption |].
      destruct (loop_body_inv _ _ _ E) as (_ & _ & _ & _ & En & _).
      now rewrite En. }
  destruct (G ticks (main_init pending stale)) as (s' & E & (Hm & Hp & _ & Hr) & Hn);
    [apply main_init_wf | reflexivity |].
  exists s'. rewrite Hn in Hr. auto.
Qed.

(** X2.  An iteration takes at most one byte from the receive buffer, the
    oldest one: afterwards the buffer is its former tail, and the packet is
    that byte, or the packet it was when the buffer was empty. *)
Theorem iteration_consumes_one_byte (env : Analog) (s : State) :
  wf_state s ->
  exists s', loop_body env s = Some s' /\
             rx (rpi s') = tail (rx (rpi s)) /\
             packet s' = match rx (rpi s) with
                         | [] => packet s
                         | c :: _ => set_as_byte c
                         end.
Proof.
  intros Hwf.
  destruct (loop_body_total env s Hwf) as (_ & _ & s' & _ & _ & _ & E & _).
  exists s'. split; [assumption |]. split; [now apply (loop_body_rx env) |].
  destruct (loop_body_inv _ _ _ E) as (_ & _ & Pk & _). rewrite Pk. apply ingest_packet.
Qed.

Lemma iteration_consumes_one_byte_witness :
  wf_state (main_init [65; 4; 130] 0) /\
  exists s', loop_body flipper_readings (main_init [65; 4; 130] 0) = Some s' /\
             rx (rpi s') = tail (rx (rpi (main_init [65; 4; 130] 0))) /\
             packet s' = match rx (rpi (main_init [65; 4; 130] 0)) with
                         | [] => packet (main_init [65; 4; 130] 0)
                         | c :: _ => set_as_byte c
                         end.
Proof.
  split; [repeat split; simpl; lia |].
  apply (iteration_consumes_one_byte flipper_readings (main_init [65; 4; 130] 0)).
  repeat split; simpl; lia.
Defined.

(** X3.  While the host sends nothing more, [k] iterations work through
    the first [k] pending bytes in the order they arrived: the buffer loses
    its first [k] bytes, and the packet is the last of those, or unchanged
    when none was pending. *)
Theorem pending_bytes_in_order (ticks : list Tick) (s : State) :
  wf_state s ->
  Forall (fun t => arriving t = []) ticks ->
  exists s', run ticks s = Some s' /\
             rx (rpi s') = drop (length ticks) (rx (rpi s)) /\
             packet s' = match last (take (length ticks) (rx (rpi s))) with
                         | Some c => set_as_byte c
                         | None => packet s
                         end.
Proof.
  revert s. induction ticks as [| t ticks IH]; intros s Hwf Hq; simpl.
  - exists s. split; [reflexivity |]. split; reflexivity.
  - inversion Hq as [| t0 ts0 Ht Hq' ]; subst. rewrite Ht, receive_nothing.
    destruct (loop_body_total (analog t) s Hwf) as (_ & _ & s1 & _ & _ & _ & E & Hwf1).
    rewrite E. simpl.
    destruct (IH s1 Hwf1 Hq') as (s' & Er & Hrx & Hpk).
    exists s'. split; [assumption |].
    pose proof (loop_body_rx _ _ _ E) as Hrx1.
    destruct (loop_body_inv _ _ _ E) as (_ & _ & Pk & _).
    rewrite ingest_packet in Pk. rewrite Hrx1 in Hrx, Hpk. rewrite Pk in Hpk.
    destruct (rx (rpi s)) as [| c r]; simpl in *.
    + rewrite drop_nil in Hrx. rewrite take_nil in Hpk. auto.
    + split; [assumption |]. rewrite last_cons.
      destruct (last (take (length ticks) r)); assumption.
Qed.

Lemma pending_bytes_in_order_witness :
  wf_state (main_init [65; 4; 130] 0) /\
  Forall (fun t => arriving t = [])
         [ {| arriving := []; analog := flipper_readings |};
           {| arriving := []; analog := flipper_readings |} ] /\
  exists s', run [ {| arriving := []; analog := flipper_readings |};
                   {| arriving := []; analog := flipper_readings |} ]
                 (main_init [65; 4; 130] 0) = Some s' /\
             rx (rpi s') = drop 2 (rx (rpi (main_init [65; 4; 130] 0))) /\
             packet s' = match last (take 2 (rx (rpi (main_init [65; 4; 130] 0)))) with
                         | Some c => set_as_byte c
                         | None => packet (main_init [65; 4; 130] 0)
                         end.
Proof.
  split; [repeat split; simpl; lia |].
  split; [repeat constructor |].
  apply (pending_bytes_in_order
           [ {| arriving := []; analog := flipper_readings |};
             {| arriving := []; analog := flipper_readings |} ]
           (main_init [65; 4; 130] 0)).
  - repeat split; simpl; lia.
  - repeat constructor.
Defined.

(** * The report *)

Lemma report_tokens_tx res k : forall i link link',
  0 <= i -> i + Z.of_nat k = Z.of_nat (length res) ->
  report_tokens res k i link = Some link' ->
  tx (printf newline link')
  = String.append (tx link)
      (fold_right (fun v rest => String.append (token v) rest) newline
                  (drop (Z.to_nat i) res)).
Proof.
  induction k as [| k IH]; intros i link link' Hi Hlen E.
  - simpl in E. injection E as <-. rewrite drop_ge by lia. reflexivity.
  - cbn [report_tokens] in E.
    destruct (arr_get res i) as [v |] eqn:Ev; [| discriminate].
    simpl in E. rewrite (IH (i + 1) _ _ ltac:(lia) ltac:(lia) E).
    rewrite arr_get_lookup in Ev by lia.
    rewrite (drop_S _ _ _ Ev). replace (Z.to_nat (i + 1)) with (S (Z.to_nat i)) by lia.
    unfold printf at 1. cbn [tx fold_right]. unfold token. apply append_assoc.
Qed.

Lemma loop_body_report env s s' :
  wf_state s -> loop_body env s = Some s' ->
  tx (rpi s') = String.append (tx (rpi s)) (report_line (adc_results s')) /\
  length (adc_results s') = Z.to_nat (n_adc s).
Proof.
  intros (_ & Hp & Hn & Hr) E.
  destruct (loop_body_inv _ _ _ E) as (link & _ & _ & _ & _ & Sa & Rt & Rl).
  destruct (sample_active_spec env (n_adc s) (adc_results s) Hn Hr) as (res & Er & Hl & _).
  rewrite Hp, Er in Sa. injection Sa as ->.
  split; [| assumption].
  rewrite Rl.
  rewrite (report_tokens_tx (adc_results s') (Z.to_nat (n_adc s)) 0 _ _
             ltac:(lia) ltac:(lia) Rt).
  destruct (ingest_frame s) as (_ & _ & _ & _ & ->). reflexivity.
Qed.

(** X4.  Every iteration appends exactly one line to what has been
    printed: a token ["0x"], digits, space for each of the [n_adc] entries
    of [adc_results], in index order, and then a newline.  What was
    printed before is kept. *)
Theorem iteration_prints_one_line (env : Analog) (s : State) :
  wf_state s ->
  exists s', loop_body env s = Some s' /\
             tx (rpi s') = String.append (tx (rpi s)) (report_line (adc_results s')) /\
             length (adc_results s') = Z.to_nat (n_adc s).
Proof.
  intros Hwf.
  destruct (loop_body_total env s Hwf) as (_ & _ & s' & _ & _ & _ & E & _).
  exists s'. split; [assumption |]. now apply (loop_body_report env).
Qed.

Lemma iteration_prints_one_line_witness :
  wf_state (main_init [] 4) /\
  exists s', loop_body flipper_readings (main_init [] 4) = Some s' /\
             tx (rpi s') = String.append (tx (rpi (main_init [] 4)))
                                         (report_line (adc_results s')) /\
             length (adc_results s') = Z.to_nat (n_adc (main_init [] 4)).
Proof.
  split; [repeat split; simpl; lia |].
  apply (iteration_prints_one_line flipper_readings (main_init [] 4)).
  repeat split; simpl; lia.
Defined.

(** X5.  With two channels in use, as shipped, the line an iteration
    prints holds the reading of the left flipper input [p19] and then the
    reading of the right flipper input [p20], both taken in this iteration
    and reduced to 16 bits, whatever the buffer held before. *)
Theorem shipped_report_is_the_flipper_readings (env : Analog) (s : State) :
  wf_state s -> n_adc s = 2 ->
  exists s', loop_body env s = Some s' /\
             adc_results s' = [env p19 mod 65536; env p20 mod 65536] /\
             tx (rpi s')
             = String.append (tx (rpi s))
                 (String.append (token (env p19 mod 65536))
                    (String.append (token (env p20 mod 65536)) newline)).
Proof.
  intros Hwf Hn.
  destruct (loop_body_total env s Hwf) as (_ & _ & s' & _ & _ & _ & E & _).
  destruct (loop_body_report env s s' Hwf E) as (Htx & _).
  destruct (loop_body_inv _ _ _ E) as (_ & _ & _ & _ & _ & Sa & _).
  destruct Hwf as (_ & Hp & _ & Hr).
  destruct (sample_active_spec env 2 (adc_results s)) as (res & Er & Hl & H0 & H1 & _);
    [lia | now rewrite Hr, Hn |].
  rewrite Hp, Hn, Er in Sa. injection Sa as ->.
  assert (Hres : adc_results s' = [env p19 mod 65536; env p20 mod 65536])
    by (apply list_of_two; assumption).
  exists s'. split; [assumption |]. split; [assumption |].
  rewrite Htx, Hres. reflexivity.
Qed.

Lemma shipped_report_is_the_flipper_readings_witness :
  wf_state (main_init [] 4) /\ n_adc (main_init [] 4) = 2 /\
  exists s', loop_body flipper_readings (main_init [] 4) = Some s' /\
             adc_results s' = [flipper_readings p19 mod 65536; flipper_readings p20 mod 65536] /\
             tx (rpi s')
             = String.append (tx (rpi (main_init [] 4)))
                 (String.append (token (flipper_readings p19 mod 65536))
                    (String.append (token (flipper_readings p20 mod 65536)) newline)).
Proof.
  split; [repeat split; simpl; lia |]. split; [reflexivity |].
  apply (shipped_report_is_the_flipper_readings flipper_readings (main_init [] 4));
    [repeat split; simpl; lia | reflexivity].
Defined.

Lemma digits_table :
  forallb (fun hi => forallb (fun lo => digits_ok (256 * hi + lo)) (Zrange 0 256))
          (Zrange 0 256) = true.
Proof. vm_compute. reflexivity. Qed.

(** X6.  For a 16-bit reading the digits of its token are one to four
    upper-case hexadecimal digits without padding, and they denote the
    reading: the host reads back the very value that was sampled. *)
Theorem token_digits_denote_reading (v : Z) :
  0 <= v <= 65535 ->
  hex_value (format_X v) = Some v /\
  unpadded (format_X v) = true /\
  (1 <= String.length (format_X v) <= 4)%nat.
Proof.
  intros Hv.
  assert (Hhi : 0 <= v / 256 < 256) by (Z.div_mod_to_equations; lia).
  assert (Hlo : 0 <= v mod 256 < 256) by (Z.div_mod_to_equations; lia).
  pose proof (Zrange_forallb _ 0 256 digits_table (v / 256) ltac:(lia)) as H.
  cbv beta in H.
  apply (fun T => Zrange_forallb _ 0 256 T (v mod 256) ltac:(lia)) in H.
  cbv beta in H. rewrite <- Z.div_mod in H by lia. clear Hhi Hlo.
  unfold digits_ok in H. rewrite !andb_true_iff, !Z.leb_le in H.
  destruct H as (((Hlo & Hhi) & Hu) & Hd).
  destruct (hex_value (format_X v)) as [n |]; [| discriminate].
  apply Z.eqb_eq in Hd. subst n. repeat split; try assumption; lia.
Qed.

Lemma token_digits_denote_reading_witness :
  0 <= 43981 <= 65535 /\
  hex_value (format_X 43981) = Some 43981 /\
  unpadded (format_X 43981) = true /\
  (1 <= String.length (format_X 43981) <= 4)%nat.
Proof. split; [lia | apply (token_digits_denote_reading 43981); lia]. Defined.

(** * More on the command byte *)

Lemma extension_table :
  forallb (fun b => Bool.eqb (is_extension (decode b)) ((4 <=? b) && (b <=? 7)))
          (Zrange 0 256) = true.
Proof. vm_compute. reflexivity. Qed.

(** X7.  Of the 256 byte values exactly the four bytes 4, 5, 6 and 7 take
    the extension branch; every other byte requests a drive. *)
Theorem extension_bytes_are_4_to_7 (b : Z) :
  0 <= b <= 255 ->
  (is_extension (decode b) = true <-> 4 <= b <= 7) /\
  (drive_request (decode b) <> None <-> b < 4 \/ 7 < b).
Proof.
  intros Hb.
  pose proof (Zrange_forallb _ 0 256 extension_table b ltac:(lia)) as H.
  cbv beta in H. apply Bool.eqb_prop in H.
  assert (E : is_extension (decode b) = true <-> 4 <= b <= 7).
  { rewrite H, andb_true_iff, !Z.leb_le. reflexivity. }
  split; [exact E |].
  unfold drive_request. destruct (is_extension (decode b)).
  - split; [congruence | lia].
  - split; [intros _ | congruence].
    destruct (Z_le_dec 4 b); [| lia]. destruct (Z_le_dec b 7); [| lia].
    assert (false = true) by (apply E; lia). discriminate.
Qed.

Lemma extension_bytes_are_4_to_7_witness :
  0 <= 6 <= 255 /\
  (is_extension (decode 6) = true <-> 4 <= 6 <= 7) /\
  (drive_request (decode 6) <> None <-> 6 < 4 \/ 7 < 6).
Proof. split; [lia | apply (extension_bytes_are_4_to_7 6); lia]. Defined.

Lemma byte_of_fields p :
  0 <= as_byte p <= 255 ->
  as_byte p = motor_id p + 4 * negative p + 8 * speed p.
Proof.
  intros H. rewrite motor_id_mod, negative_mod, speed_mod.
  Z.div_mod_to_equations. lia.
Qed.

(** X8.  The three fields determine the byte: a byte is its [motor_id]
    plus 4 times its [negative] bit plus 8 times its [speed], so two
    different bytes never decode to the same triple. *)
Theorem decode_injective (b1 b2 : Z) :
  0 <= b1 <= 255 -> 0 <= b2 <= 255 ->
  motor_id (decode b1) = motor_id (decode b2) ->
  negative (decode b1) = negative (decode b2) ->
  speed (decode b1) = speed (decode b2) ->
  b1 = b2 /\
  b1 = motor_id (decode b1) + 4 * negative (decode b1) + 8 * speed (decode b1).
Proof.
  intros H1 H2 Hm Hn Hs.
  pose proof (byte_of_fields (decode b1)) as E1.
  pose proof (byte_of_fields (decode b2)) as E2.
  unfold decode in *. rewrite (set_as_byte_id b1 H1) in E1.
  rewrite (set_as_byte_id b2 H2) in E2.
  specialize (E1 H1). specialize (E2 H2). split; [| exact E1]. lia.
Qed.

Lemma decode_injective_witness :
  0 <= 173 <= 255 /\ 0 <= 173 <= 255 /\
  motor_id (decode 173) = motor_id (decode 173) /\
  negative (decode 173) = negative (decode 173) /\
  speed (decode 173) = speed (decode 173) /\
  173 = 173 /\
  173 = motor_id (decode 173) + 4 * negative (decode 173) + 8 * speed (decode 173).
Proof.
  split; [lia |]. split; [lia |]. split; [reflexivity |].
  split; [reflexivity |]. split; [reflexivity |].
  apply (decode_injective 173 173); solve [lia | reflexivity].
Defined.

(** * From the packet to the motor *)

Lemma sf_eqb_eq x y : sf_eqb x y = true -> x = y.
Proof.
  destruct x as [a | a | | a m e], y as [b | b | | b m' e']; simpl; try discriminate.
  - intros H. apply Bool.eqb_prop in H. now subst.
  - intros H. apply Bool.eqb_prop in H. now subst.
  - reflexivity.
  - rewrite !andb_true_iff. intros [[Ha Hm] He].
    apply Bool.eqb_prop in Ha. apply Pos.eqb_eq in Hm. apply Z.eqb_eq in He. now subst.
Qed.

Lemma sign_table :
  forallb (fun z =>
             Bool.eqb (Float.ltb (Float.ratio z 31) (Float.float_of_int 0)) (z <? 0)
             && sf_eqb (Float.abs (Float.ratio z 31)) (Float.ratio (Z.abs z) 31))
          (Zrange (-31) 63) = true.
Proof. vm_compute. reflexivity. Qed.

Lemma ratio_sign z :
  -31 <= z <= 31 ->
  Float.ltb (Float.ratio z 31) (Float.float_of_int 0) = (z <? 0) /\
  Float.abs (Float.ratio z 31) = Float.ratio (Z.abs z) 31.
Proof.
  intros Hz. pose proof (Zrange_forallb _ (-31) 63 sign_table z ltac:(lia)) as H.
  cbv beta in H. apply andb_true_iff in H. destruct H as [H1 H2].
  split; [now apply Bool.eqb_prop | now apply sf_eqb_eq].
Qed.

Lemma normalized_speed_sign p :
  Float.ltb (normalized_speed p) (Float.float_of_int 0)
  = negb (negative p =? 0) && negb (speed p =? 0) /\
  Float.abs (normalized_speed p) = Float.ratio (speed p) 31.
Proof.
  unfold normalized_speed. pose proof (speed_range p) as Hs.
  destruct (negative p =? 0) eqn:En.
  - destruct (ratio_sign (1 * speed p)) as [H1 H2]; [lia |].
    rewrite H1, H2. split; [simpl; apply Z.ltb_ge; lia | f_equal; lia].
  - destruct (ratio_sign (-1 * speed p)) as [H1 H2]; [lia |].
    rewrite H1, H2. split; [| f_equal; lia].
    simpl. destruct (speed p =? 0) eqn:Es.
    + apply Z.eqb_eq in Es. apply Z.ltb_ge. lia.
    + apply Z.eqb_neq in Es. apply Z.ltb_lt. lia.
Qed.

(** X9.  A drive packet sets the direction of its motor from the
    [negative] bit alone (forward when clear, reverse when set) and the
    duty cycle from the [speed] field alone: the duty is [speed / 31.0] as
    a [float], the same in both directions. *)
Theorem drive_packet_direction_and_duty (s : State) :
  wf_state s -> is_extension (packet s) = false ->
  exists s' m',
    act s = Some s' /\
    arr_get (motors s') (motor_id (packet s)) = Some m' /\
    (level (dir m') = forward_level <-> negative (packet s) = 0) /\
    (level (dir m') = reverse_level <-> negative (packet s) = 1) /\
    duty (pwm m') = Float.ratio (speed (packet s)) 31.
Proof.
  intros (Hlen & _) Hext.
  pose proof (motor_id_range (packet s)) as Hid.
  pose proof (negative_range (packet s)) as Hneg.
  destruct (drive_motor_in_range (motors s) (motor_id (packet s))
              (normalized_speed (packet s))) as (m & Em & Ed); [lia |].
  assert (Ea : act_motors (drive_request (packet s)) (motors s)
               = Some (<[Z.to_nat (motor_id (packet s))
                         := drive (normalized_speed (packet s)) m]> (motors s))).
  { unfold drive_request. rewrite Hext. exact Ed. }
  eexists. exists (drive (normalized_speed (packet s)) m).
  split; [apply (act_unfold _ _ Ea) |]. cbn [motors].
  split; [rewrite arr_get_lookup by lia; apply list_lookup_insert_eq; lia |].
  destruct (normalized_speed_sign (packet s)) as [Hlt Habs].
  rewrite drive_level, Hlt. unfold forward_level, reverse_level.
  assert (Hnz : negative (packet s) = 1 -> speed (packet s) <> 0).
  { intros Hn Hs. assert (is_extension (packet s) = true)
      by (apply is_extension_spec; auto). congruence. }
  split; [| split; [| exact Habs]].
  - destruct (negative (packet s) =? 0) eqn:En; simpl.
    + apply Z.eqb_eq in En. split; auto.
    + apply Z.eqb_neq in En.
      destruct (speed (packet s) =? 0) eqn:Es; simpl.
      * apply Z.eqb_eq in Es. exfalso. apply Hnz; [lia | assumption].
      * split; [discriminate | lia].
  - destruct (negative (packet s) =? 0) eqn:En; simpl.
    + apply Z.eqb_eq in En. split; [discriminate | lia].
    + apply Z.eqb_neq in En.
      destruct (speed (packet s) =? 0) eqn:Es; simpl.
      * apply Z.eqb_eq in Es. exfalso. apply Hnz; [lia | assumption].
      * split; [lia | reflexivity].
Qed.

Lemma drive_packet_direction_and_duty_witness :
  wf_state (main_init [] 255) /\ is_extension (packet (main_init [] 255)) = false /\
  exists s' m',
    act (main_init [] 255) = Some s' /\
    arr_get (motors s') (motor_id (packet (main_init [] 255))) = Some m' /\
    (level (dir m') = forward_level <-> negative (packet (main_init [] 255)) = 0) /\
    (level (dir m') = reverse_level <-> negative (packet (main_init [] 255)) = 1) /\
    duty (pwm m') = Float.ratio (speed (packet (main_init [] 255))) 31.
Proof.
  split; [repeat split; simpl; lia |]. split; [reflexivity |].
  apply (drive_packet_direction_and_duty (main_init [] 255));
    [repeat split; simpl; lia | reflexivity].
Defined.

Lemma monotone_table :
  forallb (fun a =>
    forallb (fun b =>
      implb (a <? b) (Float.ltb (Float.ratio a 31) (Float.ratio b 31)))
    (Zrange 0 32))
  (Zrange 0 32) = true.
Proof. vm_compute. reflexivity. Qed.

(** X10.  The duty cycle grows strictly with the [speed] field, whatever
    the directions: the 32 speeds give 32 different duty cycles, from 0 for
    speed 0 up to 1 for speed 31. *)
Theorem duty_increases_with_speed (p q : MotorPacket) :
  speed p < speed q ->
  Float.ltb (Float.abs (normalized_speed p)) (Float.abs (normalized_speed q)) = true /\
  (speed p = 0 -> Float.abs (normalized_speed p) = S754_zero false) /\
  (speed q = 31 -> Float.abs (normalized_speed q) = Float.float_of_int 1).
Proof.
  intros Hlt.
  pose proof (speed_range p) as Hp. pose proof (speed_range q) as Hq.
  destruct (normalized_speed_sign p) as [_ ->].
  destruct (normalized_speed_sign q) as [_ ->].
  split; [| split].
  - pose proof (Zrange_forallb _ 0 32 monotone_table (speed p) ltac:(lia)) as H.
    cbv beta in H.
    pose proof (Zrange_forallb _ 0 32 H (speed q) ltac:(lia)) as H'.
    cbv beta in H'. apply Z.ltb_lt in Hlt. rewrite Hlt in H'. exact H'.
  - intros ->. vm_compute. reflexivity.
  - intros ->. vm_compute. reflexivity.
Qed.

Lemma duty_increases_with_speed_witness :
  speed (decode 65) < speed (decode 255) /\
  Float.ltb (Float.abs (normalized_speed (decode 65)))
            (Float.abs (normalized_speed (decode 255))) = true /\
  (speed (decode 65) = 0 -> Float.abs (normalized_speed (decode 65)) = S754_zero false) /\
  (speed (decode 255) = 31 ->
   Float.abs (normalized_speed (decode 255)) = Float.float_of_int 1).
Proof.
  split; [vm_compute; reflexivity |].
  apply (duty_increases_with_speed (decode 65) (decode 255)). vm_compute. reflexivity.
Defined.

(** * More on the sample step *)

(** X11.  The sample step overwrites every slot of the buffer: what it
    leaves depends on this iteration's readings only, not on what the
    buffer held. *)
Theorem sample_overwrites_buffer (env : Analog) (n : Z) (res1 res2 : list Z) :
  2 <= n <= 6 -> length res1 = Z.to_nat n -> length res2 = Z.to_nat n ->
  exists res, sample_active env main_pots n res1 = Some res /\
              sample_active env main_pots n res2 = Some res.
Proof.
  intros Hn H1 H2.
  destruct (sample_active_spec env n res1 Hn H1) as (r1 & E1 & L1 & A1 & B1 & C1).
  destruct (sample_active_spec env n res2 Hn H2) as (r2 & E2 & L2 & A2 & B2 & C2).
  exists r1. split; [assumption |]. rewrite E2. f_equal.
  apply list_eq. intros k.
  destruct (decide (k < length r1)%nat) as [Hk | Hk].
  - assert (G : arr_get r2 (Z.of_nat k) = arr_get r1 (Z.of_nat k)).
    { destruct (Z.eq_dec (Z.of_nat k) (n - 2)) as [-> | Ha]; [congruence |].
      destruct (Z.eq_dec (Z.of_nat k) (n - 1)) as [-> | Hb]; [congruence |].
      destruct (C1 (Z.of_nat k)) as (a1 & P1 & R1); [lia |].
      destruct (C2 (Z.of_nat k)) as (a2 & P2 & R2); [lia |].
      congruence. }
    rewrite !arr_get_lookup in G by lia. now rewrite Nat2Z.id in G.
  - rewrite !lookup_ge_None_2 by lia. reflexivity.
Qed.

Lemma sample_overwrites_buffer_witness :
  2 <= 4 <= 6 /\ length [1; 2; 3; 4] = Z.to_nat 4 /\ length [9; 9; 9; 9] = Z.to_nat 4 /\
  exists res, sample_active flipper_readings main_pots 4 [1; 2; 3; 4] = Some res /\
              sample_active flipper_readings main_pots 4 [9; 9; 9; 9] = Some res.
Proof.
  split; [lia |]. split; [reflexivity |]. split; [reflexivity |].
  apply (sample_overwrites_buffer flipper_readings 4 [1; 2; 3; 4] [9; 9; 9; 9]);
    solve [lia | reflexivity].
Defined.





(** * How drive calls compose *)

Lemma drive_motor_out_of_range ms i spd :
  ~ (0 <= i < Z.of_nat (length ms)) -> drive_motor i spd ms = None.
Proof.
  intros H. unfold drive_motor.
  destruct (arr_get ms i) as [m |] eqn:E; [| reflexivity].
  apply arr_get_in_range in E. contradiction.
Qed.

Lemma drive_forgets spd1 spd2 m : drive spd2 (drive spd1 m) = drive spd2 m.
Proof. reflexivity. Qed.

(** X13.  A motor has no memory of earlier commands: driving motor [i] and
    then driving it again leaves the array as the second call alone would,
    also when [i] is not a valid index (both fail). *)
Theorem last_drive_wins (ms : list Motor) (i : Z) (spd1 spd2 : spec_float) :
  drive_motor i spd1 ms ≫= drive_motor i spd2 = drive_motor i spd2 ms.
Proof.
  destruct (decide (0 <= i < Z.of_nat (length ms))) as [Hi | Hi].
  - destruct (drive_motor_in_range ms i spd1 Hi) as (m & Em & ->).
    destruct (drive_motor_in_range ms i spd2 Hi) as (m' & Em' & ->).
    rewrite Em in Em'. injection Em' as <-. cbn [mbind option_bind].
    unfold drive_motor.
    rewrite arr_get_lookup, list_lookup_insert_eq by lia. cbn [mbind option_bind].
    rewrite arr_set_in_range by (rewrite length_insert; lia).
    now rewrite list_insert_insert_eq, drive_forgets.
  - now rewrite !drive_motor_out_of_range.
Qed.

(** X14.  Drive calls on two different motors do not interfere: in either
    order they leave the same array, or both orders fail when an index is
    not valid. *)
Theorem drives_of_different_motors_commute
    (ms : list Motor) (i j : Z) (spd1 spd2 : spec_float) :
  i <> j ->
  drive_motor i spd1 ms ≫= drive_motor j spd2
  = drive_motor j spd2 ms ≫= drive_motor i spd1.
Proof.
  intros Hne.
  destruct (decide (0 <= i < Z.of_nat (length ms))) as [Hi | Hi];
    destruct (decide (0 <= j < Z.of_nat (length ms))) as [Hj | Hj].
  - destruct (drive_motor_in_range ms i spd1 Hi) as (mi & Ei & ->).
    destruct (drive_motor_in_range ms j spd2 Hj) as (mj & Ej & ->).
    cbn [mbind option_bind]. unfold drive_motor.
    rewrite !arr_get_lookup in * by lia.
    rewrite !list_lookup_insert_ne by lia. rewrite Ei, Ej. cbn [mbind option_bind].
    rewrite !arr_set_in_range by (rewrite length_insert; lia).
    f_equal. apply list_insert_insert_ne. lia.
  - destruct (drive_motor_in_range ms i spd1 Hi) as (mi & Ei & ->).
    cbn [mbind option_bind].
    rewrite !drive_motor_out_of_range; [reflexivity | assumption |].
    now rewrite length_insert.
  - destruct (drive_motor_in_range ms j spd2 Hj) as (mj & Ej & ->).
    cbn [mbind option_bind].
    rewrite !drive_motor_out_of_range; [reflexivity | | assumption].
    now rewrite length_insert.
  - now rewrite !drive_motor_out_of_range.
Qed.

Lemma drives_of_different_motors_commute_witness :
  0 <> 3 /\
  drive_motor 0 (Float.ratio 8 31) main_motors ≫= drive_motor 3 (Float.ratio (-31) 31)
  = drive_motor 3 (Float.ratio (-31) 31) main_motors ≫= drive_motor 0 (Float.ratio 8 31).
Proof.
  split; [lia |].
  apply (drives_of_different_motors_commute main_motors 0 3). lia.
Defined.

(** * What the loop keeps true of the motors *)

Lemma Motor_init_ok pin_pwm pin_dir : motor_ok (Motor_init pin_pwm pin_dir).
Proof.
  unfold motor_ok. split; [reflexivity |].
  split; [vm_compute; reflexivity |]. split; [vm_compute; reflexivity |].
  left. reflexivity.
Qed.

Lemma drive_ok spd m :
  Float.in_unit_range spd = true -> motor_ok m -> motor_ok (drive spd m).
Proof.
  intros Hs (Hp & _). unfold motor_ok.
  split; [exact Hp |].
  split; [apply abs_nonneg; now apply unit_range_not_nan |].
  split; [now apply abs_le_one |].
  rewrite drive_level. unfold reverse_level, forward_level.
  destruct (Float.ltb _ _); auto.
Qed.

Lemma act_motors_ok p ms ms' :
  act_motors (drive_request p) ms = Some ms' ->
  Forall motor_ok ms ->
  Forall motor_ok ms' /\ binding <$> ms' = binding <$> ms.
Proof.
  unfold drive_request. destruct (is_extension p); simpl.
  - intros [= <-]. auto.
  - intros E Hok.
    destruct (decide (0 <= motor_id p < Z.of_nat (length ms))) as [Hi | Hi];
      [| rewrite drive_motor_out_of_range in E by assumption; discriminate].
    destruct (drive_motor_in_range ms (motor_id p) (normalized_speed p) Hi)
      as (m & Em & Ed).
    rewrite Ed in E. injection E as <-.
    rewrite arr_get_lookup in Em by lia. split.
    + apply Forall_insert; [assumption |].
      apply drive_ok; [apply normalized_speed_in_unit_range |].
      now apply (Forall_lookup_1 _ _ _ _ Hok Em).
    + rewrite list_fmap_insert. apply list_insert_id.
      rewrite list_lookup_fmap, Em. reflexivity.
Qed.

(** X15.  For as long as the loop runs, whatever bytes arrive, every
    motor keeps the 40 microsecond period of its constructor, a duty cycle
    within [0,1] and a direction output that is low or high, and the four
    motors stay bound to their pins in the order the host expects. *)
Theorem motors_stay_in_range (pending : list Z) (stale : Z) (ticks : list Tick) :
  exists s', run ticks (main_init pending stale) = Some s' /\
             Forall motor_ok (motors s') /\
             binding <$> motors s' = [(p21, p11); (p22, p12); (p23, p13); (p24, p14)].
Proof.
  assert (G : forall ts s,
             wf_state s -> Forall motor_ok (motors s) ->
             exists s', run ts s = Some s' /\ Forall motor_ok (motors s') /\
                        binding <$> motors s' = binding <$> motors s).
  { induction ts as [| t ts IH]; intros s Hwf Hok; simpl.
    - eauto.
    - destruct (loop_body_total (analog t) (receive (arriving t) s))
        as (_ & _ & s1 & _ & _ & _ & E & Hwf1); [now apply wf_receive |].
      rewrite E. cbn [mbind option_bind].
      destruct (loop_body_inv _ _ _ E) as (_ & Am & _).
      cbn [motors receive] in Am.
      destruct (act_motors_ok _ _ _ Am Hok) as (Hok1 & Hb1).
      destruct (IH s1 Hwf1 Hok1) as (s' & Er & Hok' & Hb').
      exists s'. split; [assumption |]. split; [assumption |]. congruence. }
  destruct (G ticks (main_init pending stale)) as (s' & E & Hok & Hb).
  - apply main_init_wf.
  - repeat constructor; apply Motor_init_ok.
  - exists s'. split; [assumption |]. split; [assumption |]. rewrite Hb. reflexivity.
Qed.

(** * Whole iterations *)

Lemma act_motors_frame p ms ms' :
  act_motors (drive_request p) ms = Some ms' ->
  forall j, j <> motor_id p -> arr_get ms' j = arr_get ms j.
Proof.
  unfold drive_request. destruct (is_extension p); simpl.
  - now intros [= <-].
  - unfold drive_motor. destruct (arr_get ms (motor_id p)) as [m |]; [| discriminate].
    simpl. intros E j Hj. now apply (arr_get_set_ne _ _ _ _ _ E).
Qed.

(** X16.  An iteration changes at most one motor, the one the packet in
    effect names; sampling and reporting touch no motor. *)
Theorem iteration_changes_at_most_one_motor (env : Analog) (s : State) :
  wf_state s ->
  exists s', loop_body env s = Some s' /\
             forall j, j <> motor_id (packet s') ->
                       arr_get (motors s') j = arr_get (motors s) j.
Proof.
  intros Hwf.
  destruct (loop_body_total env s Hwf) as (_ & _ & s' & _ & _ & _ & E & _).
  exists s'. split; [assumption |].
  destruct (loop_body_inv _ _ _ E) as (_ & Am & Pk & _).
  rewrite Pk. now apply act_motors_frame.
Qed.

Lemma iteration_changes_at_most_one_motor_witness :
  wf_state (main_init [130] 0) /\
  exists s', loop_body flipper_readings (main_init [130] 0) = Some s' /\
             forall j, j <> motor_id (packet s') ->
                       arr_get (motors s') j = arr_get (motors (main_init [130] 0)) j.
Proof.
  split; [repeat split; simpl; lia |].
  apply (iteration_changes_at_most_one_motor flipper_readings (main_init [130] 0)).
  repeat split; simpl; lia.
Defined.

Lemma driven_motor p ms :
  length ms = 4%nat -> is_extension p = false ->
  exists m, act_motors (drive_request p) ms
            = Some (<[Z.to_nat (motor_id p) := drive (normalized_speed p) m]> ms).
Proof.
  intros Hlen Hext. pose proof (motor_id_range p) as Hid.
  destruct (drive_motor_in_range ms (motor_id p) (normalized_speed p)) as (m & _ & Ed);
    [lia |].
  exists m. unfold drive_request. rewrite Hext. exact Ed.
Qed.

(** X17.  What a command byte does, in terms of the byte: an iteration
    that reads a byte [b] other than 4..7 leaves motor [b mod 4] with duty
    [(b / 8) / 31.0] and with its direction forward exactly when bit 2 of
    [b] is clear. *)
Theorem command_byte_semantics (env : Analog) (s : State) (b : Z) (rest : list Z) :
  wf_state s -> rx (rpi s) = b :: rest ->
  0 <= b <= 255 -> ~ (4 <= b <= 7) ->
  exists s' m',
    loop_body env s = Some s' /\
    arr_get (motors s') (b mod 4) = Some m' /\
    duty (pwm m') = Float.ratio (b / 8) 31 /\
    (level (dir m') = forward_level <-> (b / 4) mod 2 = 0).
Proof.
  intros Hwf Hrx Hb Hne.
  destruct (loop_body_total env s Hwf) as (_ & _ & s' & _ & _ & _ & E & _).
  destruct (loop_body_inv _ _ _ E) as (_ & Am & _).
  rewrite (ingest_byte s _ _ Hrx) in Am. cbn [packet] in Am.
  set (p := set_as_byte b) in *.
  assert (Hbyte : as_byte p = b) by now apply set_as_byte_id.
  assert (Hext : is_extension p = false).
  { destruct (is_extension p) eqn:Ex; [| reflexivity].
    apply is_extension_spec in Ex. destruct Ex as [Hn Hs].
    rewrite negative_mod, Hbyte in Hn. rewrite speed_mod, Hbyte in Hs.
    exfalso. apply Hne. Z.div_mod_to_equations. lia. }
  destruct Hwf as (Hlen & _).
  destruct (driven_motor p (motors s) Hlen Hext) as (m & Ed).
  rewrite Ed in Am. injection Am as Am.
  pose proof (motor_id_range p) as Hid.
  assert (Hm : motor_id p = b mod 4) by now rewrite motor_id_mod, Hbyte.
  assert (Hs : speed p = b / 8).
  { rewrite speed_mod, Hbyte. apply Z.mod_small. Z.div_mod_to_equations. lia. }
  assert (Hn : negative p = (b / 4) mod 2) by now rewrite negative_mod, Hbyte.
  exists s', (drive (normalized_speed p) m).
  split; [assumption |].
  split; [rewrite <- Am, <- Hm, arr_get_lookup by lia; apply list_lookup_insert_eq; lia |].
  destruct (normalized_speed_sign p) as [Hlt Habs].
  split; [cbn [drive pwm duty PwmOut_write]; now rewrite Habs, Hs |].
  rewrite drive_level, Hlt, <- Hn. unfold forward_level.
  pose proof (negative_range p) as Hr.
  destruct (negative p =? 0) eqn:En; simpl.
  - apply Z.eqb_eq in En. split; auto.
  - apply Z.eqb_neq in En. destruct (speed p =? 0) eqn:Es; simpl.
    + apply Z.eqb_eq in Es. exfalso.
      assert (is_extension p = true) by (apply is_extension_spec; lia). congruence.
    + split; [discriminate | lia].
Qed.

Lemma command_byte_semantics_witness :
  wf_state (main_init [174] 0) /\ rx (rpi (main_init [174] 0)) = [174] /\
  0 <= 174 <= 255 /\ ~ (4 <= 174 <= 7) /\
  exists s' m',
    loop_body flipper_readings (main_init [174] 0) = Some s' /\
    arr_get (motors s') (174 mod 4) = Some m' /\
    duty (pwm m') = Float.ratio (174 / 8) 31 /\
    (level (dir m') = forward_level <-> (174 / 4) mod 2 = 0).
Proof.
  split; [repeat split; simpl; lia |]. split; [reflexivity |].
  split; [lia |]. split; [lia |].
  apply (command_byte_semantics flipper_readings (main_init [174] 0) 174 []);
    [repeat split; simpl; lia | reflexivity | lia | lia].
Defined.

Lemma idle_run_holds ticks : forall s,
  wf_state s -> rx (rpi s) = [] ->
  act_motors (drive_request (packet s)) (motors s) = Some (motors s) ->
  Forall (fun t => arriving t = []) ticks ->
  exists s', run ticks s = Some s' /\ motors s' = motors s /\ packet s' = packet s.
Proof.
  induction ticks as [| t ticks IH]; intros s Hwf Hrx Hfix Hq; simpl.
  - eauto.
  - inversion Hq as [| t0 ts0 Ht Hq']; subst. rewrite Ht, receive_nothing.
    destruct (loop_body_total (analog t) s Hwf) as (_ & _ & s1 & _ & _ & _ & E & Hwf1).
    rewrite E. cbn [mbind option_bind].
    destruct (loop_body_inv _ _ _ E) as (_ & Am & Pk & _).
    pose proof (loop_body_rx _ _ _ E) as Hrx1. rewrite Hrx in Hrx1.
    rewrite (ingest_idle s Hrx) in Am, Pk.
    rewrite Hfix in Am. injection Am as Am.
    destruct (IH s1 Hwf1 Hrx1) as (s' & Er & Hm & Hp); [congruence | assumption |].
    exists s'. split; [assumption |]. split; congruence.
Qed.

(** X18.  Hold last speed: once the receive buffer is empty and nothing
    more arrives, every further iteration leaves the packet and all motors
    exactly as the first idle iteration left them, for any number of
    iterations. *)
Theorem idle_loop_holds_last_command (t : Tick) (ticks : list Tick) (s : State) :
  wf_state s -> rx (rpi s) = [] ->
  Forall (fun t => arriving t = []) (t :: ticks) ->
  exists s1 s',
    loop_body (analog t) s = Some s1 /\
    run (t :: ticks) s = Some s' /\
    motors s' = motors s1 /\ packet s' = packet s.
Proof.
  intros Hwf Hrx Hq. inversion Hq as [| t0 ts0 Ht Hq']; subst.
  destruct (loop_body_total (analog t) s Hwf) as (_ & _ & s1 & _ & _ & _ & E & Hwf1).
  destruct (loop_body_inv _ _ _ E) as (_ & Am & Pk & _).
  pose proof (loop_body_rx _ _ _ E) as Hrx1. rewrite Hrx in Hrx1.
  rewrite (ingest_idle s Hrx) in Am, Pk.
  pose proof (act_motors_twice _ _ _ Am) as Hfix. rewrite <- Pk in Hfix.
  destruct (idle_run_holds ticks s1 Hwf1 Hrx1 Hfix Hq') as (s' & Er & Hm & Hp).
  exists s1, s'. split; [assumption |].
  split; [simpl; rewrite Ht, receive_nothing, E; exact Er |].
  split; congruence.
Qed.

Lemma idle_loop_holds_last_command_witness :
  wf_state (main_init [] 174) /\ rx (rpi (main_init [] 174)) = [] /\
  Forall (fun t => arriving t = [])
         [ {| arriving := []; analog := flipper_readings |};
           {| arriving := []; analog := flipper_readings |};
           {| arriving := []; analog := flipper_readings |} ] /\
  exists s1 s',
    loop_body (analog {| arriving := []; analog := flipper_readings |}) (main_init [] 174)
      = Some s1 /\
    run [ {| arriving := []; analog := flipper_readings |};
          {| arriving := []; analog := flipper_readings |};
          {| arriving := []; analog := flipper_readings |} ] (main_init [] 174) = Some s' /\
    motors s' = motors s1 /\ packet s' = packet (main_init [] 174).
Proof.
  split; [repeat split; simpl; lia |]. split; [reflexivity |].
  split; [repeat constructor |].
  apply (idle_loop_holds_last_command
           {| arriving := []; analog := flipper_readings |}
           [ {| arriving := []; analog := flipper_readings |};
             {| arriving := []; analog := flipper_readings |} ]
           (main_init [] 174));
    [repeat split; simpl; lia | reflexivity | repeat constructor].
Defined.
